(** * Ansible Runner Service client: a shallow embedding

    The module [ansible_runner_svc.py] of the Ceph manager is a small REST
    client: a [Client] that issues GET/POST/DELETE requests and a
    [PlayBookExecution] handle that launches a playbook, polls its status
    and fetches its events.

    Python values that come out of [json.loads] are modelled by [json];
    exceptions by [exception]; the network, the list of requests handed to
    the HTTP stack and the logger by [World]; methods are state-passing
    computations in the monad [M]. *)

From Stdlib Require Import ZArith List String Ascii Bool Lia DecimalString.
Import ListNotations.
Open Scope string_scope.
Open Scope Z_scope.

(** ** Python values *)

(** What [json.loads] returns: None, bool, int, float, str, list, dict.
    A dict keeps its insertion order, so it is an association list (the
    decoder keeps keys unique).  A float is kept as its lexeme, of which
    [double_of_lexeme] is the value.  Strings are sequences of 8-bit
    characters, the UTF-8 encoding of the text. *)
#[warnings="-register-all"] Inductive json : Type :=
| JNull
| JBool (b : bool)
| JInt (z : Z)
| JFloat (lexeme : string)
| JStr (s : string)
| JArr (l : list json)
| JObj (m : list (string * json)).

(** The double quote, which a string literal of this file cannot hold. *)
Definition dquote : ascii := "034"%char.
Definition squote : ascii := "039"%char.
Definition backslash : ascii := "092"%char.
Definition LF : ascii := "010"%char.
Definition CR : ascii := "013"%char.
Definition TAB : ascii := "009"%char.

Fixpoint contains_char (c : ascii) (s : string) : bool :=
  match s with
  | EmptyString => false
  | String d s' => Ascii.eqb c d || contains_char c s'
  end.

(** [sep.join(l)] *)
Fixpoint join (sep : string) (l : list string) : string :=
  match l with
  | [] => ""
  | [x] => x
  | x :: l' => x ++ sep ++ join sep l'
  end.

(** [needle in haystack] for two strings: the substring test. *)
Fixpoint substring_of (needle haystack : string) : bool :=
  String.prefix needle haystack ||
  match haystack with
  | EmptyString => false
  | String _ h' => substring_of needle h'
  end.

(** *** Digits *)

Definition is_digit (c : ascii) : bool := Ascii.leb "0" c && Ascii.leb c "9".

Definition digit_value (c : ascii) : Z := Z.of_N (N_of_ascii c) - 48.

(** The longest run of decimal digits at the head of a string. *)
Fixpoint span_digits (s : string) : string * string :=
  match s with
  | String c s' =>
      if is_digit c then let (d, r) := span_digits s' in (String c d, r)
      else ("", s)
  | EmptyString => ("", s)
  end.

Fixpoint Z_of_digits (acc : Z) (s : string) : Z :=
  match s with
  | String c s' => Z_of_digits (acc * 10 + digit_value c) s'
  | EmptyString => acc
  end.

Definition string_of_Z (z : Z) : string := NilEmpty.string_of_int (Z.to_int z).

(** *** Floats *)

(** A double: not a number, an infinity, or [(-1)^neg * m * 2^e], with
    [2^52 <= m < 2^53] and [-1074 <= e <= 971] for a normal number,
    [m < 2^52] and [e = -1074] for a subnormal one, [m = 0] and [e = 0]
    for zero. *)
Inductive double : Type :=
| DNan
| DInf (neg : bool)
| DFinite (neg : bool) (m e : Z).

(** [n/d / 2^e] as a fraction. *)
Definition scale2 (n d e : Z) : Z * Z :=
  if 0 <=? e then (n, d * 2 ^ e) else (n * 2 ^ (- e), d).

(** [n/d * 10^s] as a fraction. *)
Definition scale10 (n d s : Z) : Z * Z :=
  if 0 <=? s then (n * 10 ^ s, d) else (n, d * 10 ^ (- s)).

(** The integer nearest to [n/d], the even one of two. *)
Definition round_half_even (n d : Z) : Z :=
  let q := n / d in
  let r := n mod d in
  if 2 * r <? d then q
  else if d <? 2 * r then q + 1
  else if Z.even q then q else q + 1.

(** The double nearest to [n/d], for [d > 0] and [n >= 0]: round to
    nearest, ties to even, overflow to infinity. *)
Definition nearest_double (neg : bool) (n d : Z) : double :=
  if n =? 0 then DFinite neg 0 0
  else
    let e0 := Z.log2 n - Z.log2 d - 52 in
    let e1 := let (a, b) := scale2 n d e0 in
              if a <? b * 2 ^ 52 then e0 - 1
              else if b * 2 ^ 53 <=? a then e0 + 1
              else e0 in
    let e := Z.max e1 (-1074) in
    let (a, b) := scale2 n d e in
    let m := round_half_even a b in
    let (m', e') := if m =? 2 ^ 53 then (2 ^ 52, e + 1) else (m, e) in
    if m' =? 0 then DFinite neg 0 0
    else if 971 <? e' then DInf neg
    else DFinite neg m' e'.

(** The double nearest to [m * 10^e10]; what is far below the least
    double or far above the greatest one needs no arithmetic. *)
Definition double_of_decimal (neg : bool) (m e10 : Z) : double :=
  if m =? 0 then DFinite neg 0 0
  else
    let nd := Z.of_nat (String.length (string_of_Z m)) in
    if nd + e10 <? -330 then DFinite neg 0 0
    else if 311 <? nd - 1 + e10 then DInf neg
    else let (a, b) := scale10 m 1 e10 in nearest_double neg a b.

(** [float(lexeme)] for the lexeme of a JSON number, and for the three
    names that the decoder accepts. *)
Definition double_of_lexeme (lx : string) : double :=
  if String.eqb lx "nan" then DNan
  else if String.eqb lx "inf" then DInf false
  else if String.eqb lx "-inf" then DInf true
  else
    let (neg, s1) := match lx with
                     | String "-" t => (true, t)
                     | _ => (false, lx)
                     end in
    let (ip, s2) := span_digits s1 in
    let (fp, s3) := match s2 with
                    | String "." t => span_digits t
                    | _ => ("", s2)
                    end in
    let ex := match s3 with
              | String _ (String "-" t) => - Z_of_digits 0 (fst (span_digits t))
              | String _ (String "+" t) => Z_of_digits 0 (fst (span_digits t))
              | String _ t => Z_of_digits 0 (fst (span_digits t))
              | EmptyString => 0
              end in
    double_of_decimal neg (Z_of_digits 0 (ip ++ fp)) (ex - Z.of_nat (String.length fp)).

Definition double_eqb (x y : double) : bool :=
  match x, y with
  | DNan, DNan => true
  | DInf a, DInf b => Bool.eqb a b
  | DFinite a m e, DFinite b m' e' => Bool.eqb a b && (m =? m') && (e =? e')
  | _, _ => false
  end.

(** The [k] with [10^k <= n/d < 10^(k+1)], searched from an estimate. *)
Fixpoint floor_log10_from (fuel : nat) (n d k : Z) : Z :=
  match fuel with
  | O => k
  | S fuel' =>
      let (a, b) := scale10 n d (- k) in
      if a <? b then floor_log10_from fuel' n d (k - 1)
      else if b * 10 <=? a then floor_log10_from fuel' n d (k + 1)
      else k
  end.

Definition floor_log10 (n d : Z) : Z :=
  floor_log10_from 8 n d (((Z.log2 n - Z.log2 d) * 30103) / 100000).

(** The shortest decimal with [digits] significant digits or more that
    reads back as the double [m * 2^e]: its digits as an integer and the
    power of ten that scales it down; of two that do, the nearer one. *)
Fixpoint shortest_decimal (fuel : nat) (digits : Z) (m e k : Z) : Z * Z :=
  let (n, d) := scale2 m 1 (- e) in
  let s := digits - 1 - k in
  let (a, b) := scale10 n d s in
  let lo := a / b in
  let r := a mod b in
  match fuel with
  | O => (lo, s)
  | S fuel' =>
      let ok_lo := double_eqb (double_of_decimal false lo (- s)) (DFinite false m e) in
      let ok_hi := double_eqb (double_of_decimal false (lo + 1) (- s))
                     (DFinite false m e) in
      if ok_lo && ok_hi then
        if 2 * r <? b then (lo, s)
        else if b <? 2 * r then (lo + 1, s)
        else if Z.even lo then (lo, s) else (lo + 1, s)
      else if ok_lo then (lo, s)
      else if ok_hi then (lo + 1, s)
      else shortest_decimal fuel' (digits + 1) m e k
  end.

Fixpoint strip_trailing_zeros (s : string) : string :=
  match s with
  | EmptyString => EmptyString
  | String c s' =>
      match strip_trailing_zeros s' with
      | EmptyString => if Ascii.eqb c "0" then EmptyString else String c EmptyString
      | r => String c r
      end
  end.

Fixpoint zeros (n : nat) : string :=
  match n with
  | O => EmptyString
  | S n' => String "0" (zeros n')
  end.

Fixpoint take_chars (n : nat) (s : string) : string :=
  match n, s with
  | S n', String c s' => String c (take_chars n' s')
  | _, _ => EmptyString
  end.

Fixpoint drop_chars (n : nat) (s : string) : string :=
  match n, s with
  | S n', String _ s' => drop_chars n' s'
  | _, _ => s
  end.

(** The text of digits [ds] with the decimal point after [decpt] of them,
    as [repr] lays it out: with an exponent when [decpt <= -4] or
    [decpt > 16], otherwise in full, with [.0] for a whole number. *)
Definition layout_float (ds : string) (decpt : Z) : string :=
  let len := Z.of_nat (String.length ds) in
  if (decpt <=? -4) || (16 <? decpt) then
    let x := decpt - 1 in
    let mantissa := match ds with
                    | String c EmptyString => ds
                    | String c rest => String c (String "." rest)
                    | EmptyString => ds
                    end in
    let xs := string_of_Z (Z.abs x) in
    mantissa ++ "e" ++ (if x <? 0 then "-" else "+")
             ++ (if Z.abs x <? 10 then "0" else "") ++ xs
  else if decpt <=? 0 then "0." ++ zeros (Z.to_nat (- decpt)) ++ ds
  else if len <=? decpt then ds ++ zeros (Z.to_nat (decpt - len)) ++ ".0"
  else take_chars (Z.to_nat decpt) ds ++ "." ++ drop_chars (Z.to_nat decpt) ds.

(** [repr(x)] of a float, which in Python 3 is [str(x)] too. *)
Definition float_repr (x : double) : string :=
  match x with
  | DNan => "nan"
  | DInf neg => if neg then "-inf" else "inf"
  | DFinite neg m e =>
      (if neg then "-" else "") ++
      (if m =? 0 then "0.0"
       else
         let (n, d) := scale2 m 1 (- e) in
         let k := floor_log10 n d in
         let (c, s) := shortest_decimal 17 1 m e k in
         let all := string_of_Z c in
         layout_float (strip_trailing_zeros all) (Z.of_nat (String.length all) - s))
  end.

(** [bool(x)] of a float: false for zero only. *)
Definition float_truthy (x : double) : bool :=
  match x with
  | DFinite _ m _ => negb (m =? 0)
  | _ => true
  end.

(** Python truthiness of a value, as used by [if x:] and [not x]. *)
Definition py_truthy (v : json) : bool :=
  match v with
  | JNull => false
  | JBool b => b
  | JInt z => negb (z =? 0)
  | JFloat lx => float_truthy (double_of_lexeme lx)
  | JStr s => negb (String.eqb s "")
  | JArr l => match l with [] => false | _ => true end
  | JObj m => match m with [] => false | _ => true end
  end.

(** [v == s] for a string literal [s]: only a str can equal a str. *)
Definition py_eq_str (v : json) (s : string) : bool :=
  match v with
  | JStr t => String.eqb t s
  | _ => false
  end.

Fixpoint repr_chars (q : ascii) (s : string) : string :=
  match s with
  | EmptyString => EmptyString
  | String c s' =>
      (if Ascii.eqb c backslash then String backslash (String backslash EmptyString)
       else if Ascii.eqb c q then String backslash (String q EmptyString)
       else if Ascii.eqb c LF then String backslash "n"
       else if Ascii.eqb c CR then String backslash "r"
       else if Ascii.eqb c TAB then String backslash "t"
       else String c EmptyString) ++ repr_chars q s'
  end.

(** [repr(s)] of a str: single quotes unless the text has one and has no
    double quote. *)
Definition repr_str (s : string) : string :=
  let q := if contains_char squote s && negb (contains_char dquote s)
           then dquote else squote in
  String q (repr_chars q s ++ String q EmptyString).

(** [repr(v)] in Python 3; [str(v)] is the same but for a str, which is
    itself.  A float shows the shortest decimal that reads back as it. *)
Fixpoint py_repr (v : json) : string :=
  match v with
  | JNull => "None"
  | JBool true => "True"
  | JBool false => "False"
  | JInt z => string_of_Z z
  | JFloat lx => float_repr (double_of_lexeme lx)
  | JStr s => repr_str s
  | JArr l => "[" ++ join ", " (map py_repr l) ++ "]"
  | JObj m =>
      "{" ++ join ", " (map (fun kv => repr_str (fst kv) ++ ": " ++ py_repr (snd kv)) m)
          ++ "}"
  end.

Definition py_str (v : json) : string :=
  match v with
  | JStr s => s
  | _ => py_repr v
  end.

(** ** Exceptions *)

(** The exception classes the module raises, catches or lets through.
    [OtherException] stands for any class outside the
    [RequestException]/[IOError] hierarchies that the HTTP stack may raise. *)
Inductive exc_class : Type :=
| RequestException
| IOError
| OtherException
| AnsibleRunnerServiceError
| NotImplementedError
| KeyError
| TypeError
| ValueError
| AttributeError
| ReError.

(** An exception object: its class and [str(ex)]. *)
Record exception : Type := Exc { exc_type : exc_class; exc_str : string }.

(** ** The HTTP stack *)

Record Response : Type := mkResponse {
  status_code : Z;
  reason : string;
  text : string
}.

(** [requests.codes.ok] *)
Definition codes_ok : Z := 200.

(** [Response.ok] of the requests library: [raise_for_status()] does not
    raise, that is the status is neither a client (4xx) nor a server (5xx)
    error.  [Response.__bool__] returns [ok], so [if response:] on a
    variable that holds a Response tests it. *)
Definition ok (r : Response) : bool :=
  negb ((400 <=? status_code r) && (status_code r <? 600)).

Inductive http_method : Type := GET | POST | DELETE.

(** The [verify] argument of requests: "a boolean that sometimes contains a
    string". *)
Inductive verify_mode : Type :=
| VerifyBool (b : bool)
| VerifyBundle (path : string).

(** One call of [requests.get], [requests.post] or [requests.delete] with
    its keyword arguments. *)
Record Request : Type := mkRequest {
  req_method : http_method;
  req_url : string;
  req_verify : verify_mode;
  req_cert : string * string;
  req_headers : list (string * string);
  req_json : option json;
  req_params : option json
}.

(** What the HTTP stack may raise: a [requests.exceptions.RequestException],
    an [IOError], or something else. *)
Inductive stack_failure : Type :=
| StackRequestException
| StackIOError
| StackOther.

Definition class_of_failure (f : stack_failure) : exc_class :=
  match f with
  | StackRequestException => RequestException
  | StackIOError => IOError
  | StackOther => OtherException
  end.

Inductive stack_outcome : Type :=
| Raises (f : stack_failure) (msg : string)
| Responds (r : Response).

(** ** The logger *)

Inductive log_level : Type := INFO | ERROR_LEVEL | EXCEPTION.

Inductive log_arg : Type :=
| LStr (s : string)
| LInt (z : Z)
| LValue (v : json)          (* rendered with %s *)
| LJsonDumps (v : json).     (* json.dumps(v) *)

Record LogRecord : Type := mkLog {
  log_level_of : log_level;
  log_format : string;
  log_args : list log_arg
}.

(** ** The world and the monad of methods *)

(** [remote] answers a request given the requests made before it; [sent]
    lists the calls made to the HTTP stack, oldest first; [log] the records
    written. *)
Record World : Type := mkWorld {
  remote : list Request -> Request -> stack_outcome;
  sent : list Request;
  log : list LogRecord
}.

(** A method run in state [S] returns a value or raises, and leaves a
    state either way. *)
Definition M (S A : Type) : Type := S -> (exception + A) * S.

Definition ret {S A} (a : A) : M S A := fun s => (inr a, s).

Definition raise {S A} (e : exception) : M S A := fun s => (inl e, s).

Definition bind {S A B} (m : M S A) (k : A -> M S B) : M S B :=
  fun s =>
    match m s with
    | (inl e, s') => (inl e, s')
    | (inr a, s') => k a s'
    end.

Notation "x <- m ;; k" := (bind m (fun x => k))
  (at level 61, m at next level, right associativity).
Notation "m ;;; k" := (bind m (fun _ => k))
  (at level 61, right associativity).

(** [try: m  except cls: h] *)
Definition try_except {S A} (m : M S A) (catches : exc_class -> bool)
    (h : exception -> M S A) : M S A :=
  fun s =>
    match m s with
    | (inl e, s') => if catches (exc_type e) then h e s' else (inl e, s')
    | r => r
    end.

(** A computation on the world run from a state that holds the world as
    its second component. *)
Definition lift_world {O A} (m : M World A) : M (O * World) A :=
  fun s =>
    match m (snd s) with
    | (r, w') => (r, (fst s, w'))
    end.

Definition log_write (lv : log_level) (fmt : string) (args : list log_arg)
    : M World unit :=
  fun w => (inr tt, mkWorld (remote w) (sent w) (log w ++ [mkLog lv fmt args])).

(** A call into the requests library. *)
Definition requests_call (rq : Request) : M World Response :=
  fun w =>
    let w' := mkWorld (remote w) (sent w ++ [rq]) (log w) in
    match remote w (sent w) rq with
    | Raises f msg => (inl (Exc (class_of_failure f) msg), w')
    | Responds r => (inr r, w')
    end.

(** ** Module constants *)

Definition API_URL : string := "api".
Definition PLAYBOOK_EXEC_URL : string := "api/v1/playbooks".
(** ["api/v1/jobs/%s/events" % x] *)
Definition PLAYBOOK_EVENTS (x : string) : string := "api/v1/jobs/" ++ x ++ "/events".
(** ["api/v1/jobs/%s/events/%s" % (x, y)] *)
Definition EVENT_DATA_URL (x y : string) : string :=
  "api/v1/jobs/" ++ x ++ "/events/" ++ y.

(** [except (requests.exceptions.RequestException, IOError)] *)
Definition is_requests_exception (c : exc_class) : bool :=
  match c with
  | RequestException | IOError => true
  | _ => false
  end.

(** The decorator: errors raised by the requests library become
    [AnsibleRunnerServiceError(str(ex))]. *)
Definition handle_requests_exceptions {S A} (func : M S A) : M S A :=
  try_except func is_requests_exception
    (fun ex => raise (Exc AnsibleRunnerServiceError (exc_str ex))).

Inductive ExecutionStatusCode : Type :=
| SUCCESS
| ERROR
| ON_GOING
| NOT_LAUNCHED.

Definition status_number (s : ExecutionStatusCode) : Z :=
  match s with
  | SUCCESS => 0
  | ERROR => 1
  | ON_GOING => 2
  | NOT_LAUNCHED => 3
  end.

(** ** Client *)

Record Client : Type := mkClient {
  server_url : string;
  verify_server : verify_mode;
  client_cert : string * string
}.

(** [Client.__init__]: a non-empty [ca_bundle] overwrites [verify_server];
    the URL gets its scheme. *)
Definition Client_init (url : string) (verify : bool) (ca_bundle : option string)
    (cert key : string) : Client :=
  mkClient ("https://" ++ url)
    (match ca_bundle with
     | Some p => if String.eqb p "" then VerifyBool verify else VerifyBundle p
     | None => VerifyBool verify
     end)
    (cert, key).

Definition http_get (self : Client) (endpoint : string) : M World Response :=
  handle_requests_exceptions (
    let the_url := server_url self ++ "/" ++ endpoint in
    response <- requests_call
      (mkRequest GET the_url (verify_server self) (client_cert self) [] None None) ;;
    (if negb (status_code response =? codes_ok) then
       log_write ERROR_LEVEL ("http GET %s <--> (%s - %s)" ++ String LF "%s")
         [LStr the_url; LInt (status_code response); LStr (reason response);
          LStr (text response)]
     else
       log_write INFO "http GET %s <--> (%s - %s)"
         [LStr the_url; LInt (status_code response); LStr (text response)]) ;;;
    ret response).

Definition http_post (self : Client) (endpoint : string) (payload params_dict : json)
    : M World Response :=
  handle_requests_exceptions (
    let the_url := server_url self ++ "/" ++ endpoint in
    response <- requests_call
      (mkRequest POST the_url (verify_server self) (client_cert self)
         [("Content-type", "application/json")] (Some payload) (Some params_dict)) ;;
    (if negb (status_code response =? codes_ok) then
       log_write ERROR_LEVEL ("http POST %s [%s] <--> (%s - %s:%s)" ++ String LF "")
         [LStr the_url; LValue payload; LInt (status_code response);
          LStr (reason response); LStr (text response)]
     else
       log_write INFO "http POST %s <--> (%s - %s)"
         [LStr the_url; LInt (status_code response); LStr (text response)]) ;;;
    ret response).

Definition http_delete (self : Client) (endpoint : string) : M World Response :=
  handle_requests_exceptions (
    let the_url := server_url self ++ "/" ++ endpoint in
    response <- requests_call
      (mkRequest DELETE the_url (verify_server self) (client_cert self) [] None None) ;;
    (if negb (status_code response =? codes_ok) then
       log_write ERROR_LEVEL ("http DELETE %s <--> (%s - %s)" ++ String LF "%s")
         [LStr the_url; LInt (status_code response); LStr (reason response);
          LStr (text response)]
     else
       log_write INFO "http DELETE %s <--> (%s - %s)"
         [LStr the_url; LInt (status_code response); LStr (text response)]) ;;;
    ret response).

Definition http_put (self : Client) (endpoint : string) (payload : json)
    : M World Response :=
  raise (Exc NotImplementedError "TODO").

Definition is_operative (self : Client) : M World bool :=
  handle_requests_exceptions (
    response <- http_get self API_URL ;;
    if ok response then ret (status_code response =? codes_ok)
    else ret false).

(** ** json.loads *)

Definition is_ws (c : ascii) : bool :=
  Ascii.eqb c " " || Ascii.eqb c TAB || Ascii.eqb c LF || Ascii.eqb c CR.

Fixpoint skip_ws (s : string) : string :=
  match s with
  | String c s' => if is_ws c then skip_ws s' else s
  | EmptyString => s
  end.

(** The value of a hexadecimal digit, if it is one. *)
Definition hex_value (c : ascii) : option Z :=
  let n := Z.of_N (N_of_ascii c) in
  if is_digit c then Some (n - 48)
  else if Ascii.leb "a" c && Ascii.leb c "f" then Some (n - 87)
  else if Ascii.leb "A" c && Ascii.leb c "F" then Some (n - 55)
  else None.

Definition hex4 (a b c d : ascii) : option Z :=
  match hex_value a, hex_value b, hex_value c, hex_value d with
  | Some x, Some y, Some z, Some t => Some (((x * 16 + y) * 16 + z) * 16 + t)
  | _, _, _, _ => None
  end.

Definition byte (z : Z) : ascii := ascii_of_N (Z.to_N (z mod 256)).

(** The UTF-8 encoding of a code point. *)
Definition utf8 (n : Z) : string :=
  if n <? 128 then String (byte n) ""
  else if n <? 2048 then
    String (byte (192 + n / 64)) (String (byte (128 + n mod 64)) "")
  else if n <? 65536 then
    String (byte (224 + n / 4096))
      (String (byte (128 + (n / 64) mod 64)) (String (byte (128 + n mod 64)) ""))
  else
    String (byte (240 + n / 262144))
      (String (byte (128 + (n / 4096) mod 64))
         (String (byte (128 + (n / 64) mod 64)) (String (byte (128 + n mod 64)) ""))).

(** The body of a string literal, after its opening quote: the decoded text
    and what follows the closing quote.  Control characters are refused
    (strict mode). *)
Fixpoint scan_string (s : string) : option (string * string) :=
  match s with
  | EmptyString => None
  | String c s' =>
      if Ascii.eqb c dquote then Some ("", s')
      else if Ascii.eqb c backslash then
        match s' with
        | String e s'' =>
            let simple (d : ascii) :=
              match scan_string s'' with
              | Some (t, r) => Some (String d t, r)
              | None => None
              end in
            if Ascii.eqb e dquote then simple dquote
            else if Ascii.eqb e backslash then simple backslash
            else if Ascii.eqb e "/" then simple "/"%char
            else if Ascii.eqb e "b" then simple "008"%char
            else if Ascii.eqb e "f" then simple "012"%char
            else if Ascii.eqb e "n" then simple LF
            else if Ascii.eqb e "r" then simple CR
            else if Ascii.eqb e "t" then simple TAB
            else if Ascii.eqb e "u" then
              match s'' with
              | String h1 (String h2 (String h3 (String h4 s3))) =>
                  match hex4 h1 h2 h3 h4 with
                  | Some hi =>
                      let single :=
                        match scan_string s3 with
                        | Some (t, r) => Some (utf8 hi ++ t, r)
                        | None => None
                        end in
                      if (55296 <=? hi) && (hi <=? 56319) then
                        match s3 with
                        | String b1 (String u1 (String l1 (String l2 (String l3
                            (String l4 s4))))) =>
                            if Ascii.eqb b1 backslash && Ascii.eqb u1 "u" then
                              match hex4 l1 l2 l3 l4 with
                              | Some lo =>
                                  if (56320 <=? lo) && (lo <=? 57343) then
                                    match scan_string s4 with
                                    | Some (t, r) =>
                                        Some (utf8 (65536 + (hi - 55296) * 1024
                                                    + (lo - 56320)) ++ t, r)
                                    | None => None
                                    end
                                  else single
                              | None => single
                              end
                            else single
                        | _ => single
                        end
                      else single
                  | None => None
                  end
              | _ => None
              end
            else None
        | EmptyString => None
        end
      else if Ascii.ltb c " " then None
      else
        match scan_string s' with
        | Some (t, r) => Some (String c t, r)
        | None => None
        end
  end.

(** The integer part of a number: 0, or a non-zero digit and digits. *)
Definition scan_intpart (s : string) : option (string * string) :=
  match s with
  | String c s' =>
      if Ascii.eqb c "0" then Some ("0", s')
      else if is_digit c then let (d, r) := span_digits s' in Some (String c d, r)
      else None
  | EmptyString => None
  end.

(** The optional fraction: a dot and at least one digit. *)
Definition scan_frac (s : string) : string * string :=
  match s with
  | String "." s' =>
      match span_digits s' with
      | (EmptyString, _) => ("", s)
      | (d, r) => (String "." d, r)
      end
  | _ => ("", s)
  end.

(** The optional exponent: e or E, an optional sign, at least one digit. *)
Definition scan_exp (s : string) : string * string :=
  match s with
  | String e s' =>
      if Ascii.eqb e "e" || Ascii.eqb e "E" then
        let (sign, s'') :=
          match s' with
          | String g t => if Ascii.eqb g "+" || Ascii.eqb g "-"
                          then (String g "", t) else ("", s')
          | EmptyString => ("", s')
          end in
        match span_digits s'' with
        | (EmptyString, _) => ("", s)
        | (d, r) => (String e (sign ++ d), r)
        end
      else ("", s)
  | EmptyString => ("", s)
  end.

(** A number: an int when it has neither fraction nor exponent. *)
Definition scan_number (s : string) : option (json * string) :=
  let (neg, s1) :=
    match s with
    | String "-" t => (true, t)
    | _ => (false, s)
    end in
  match scan_intpart s1 with
  | None => None
  | Some (ip, s2) =>
      let (fp, s3) := scan_frac s2 in
      let (ep, s4) := scan_exp s3 in
      if String.eqb fp "" && String.eqb ep "" then
        Some (JInt (if neg then - Z_of_digits 0 ip else Z_of_digits 0 ip), s4)
      else Some (JFloat ((if neg then "-" else "") ++ ip ++ fp ++ ep), s4)
  end.

(** [s] without the prefix [p], when it starts with it. *)
Fixpoint strip_prefix (p s : string) : option string :=
  match p, s with
  | EmptyString, _ => Some s
  | String a p', String b s' => if Ascii.eqb a b then strip_prefix p' s' else None
  | String _ _, EmptyString => None
  end.

(** [d[k] = v] on an ordered dict: a present key keeps its place. *)
Fixpoint dict_set (m : list (string * json)) (k : string) (v : json)
    : list (string * json) :=
  match m with
  | [] => [(k, v)]
  | (k', v') :: m' =>
      if String.eqb k' k then (k, v) :: m' else (k', v') :: dict_set m' k v
  end.

(** The scanner of the decoder: one value at the head of the text. *)
Fixpoint scan_value (fuel : nat) (s : string) : option (json * string) :=
  match fuel with
  | O => None
  | S fuel' =>
      match s with
      | EmptyString => None
      | String c s' =>
          if Ascii.eqb c dquote then
            match scan_string s' with
            | Some (t, r) => Some (JStr t, r)
            | None => None
            end
          else if Ascii.eqb c "{" then
            match skip_ws s' with
            | String "}" r => Some (JObj [], r)
            | s1 => scan_members fuel' [] s1
            end
          else if Ascii.eqb c "[" then
            match skip_ws s' with
            | String "]" r => Some (JArr [], r)
            | s1 => scan_elements fuel' [] s1
            end
          else
            match strip_prefix "null" s, strip_prefix "true" s,
                  strip_prefix "false" s with
            | Some r, _, _ => Some (JNull, r)
            | _, Some r, _ => Some (JBool true, r)
            | _, _, Some r => Some (JBool false, r)
            | _, _, _ =>
                match scan_number s with
                | Some x => Some x
                | None =>
                    match strip_prefix "NaN" s, strip_prefix "Infinity" s,
                          strip_prefix "-Infinity" s with
                    | Some r, _, _ => Some (JFloat "nan", r)
                    | _, Some r, _ => Some (JFloat "inf", r)
                    | _, _, Some r => Some (JFloat "-inf", r)
                    | _, _, _ => None
                    end
                end
            end
      end
  end
with scan_members (fuel : nat) (acc : list (string * json)) (s : string)
    : option (json * string) :=
  match fuel with
  | O => None
  | S fuel' =>
      match s with
      | String c s' =>
          if Ascii.eqb c dquote then
            match scan_string s' with
            | Some (k, r) =>
                match skip_ws r with
                | String ":" r1 =>
                    match scan_value fuel' (skip_ws r1) with
                    | Some (v, r2) =>
                        let acc' := dict_set acc k v in
                        match skip_ws r2 with
                        | String "}" r3 => Some (JObj acc', r3)
                        | String "," r3 => scan_members fuel' acc' (skip_ws r3)
                        | _ => None
                        end
                    | None => None
                    end
                | _ => None
                end
            | None => None
            end
          else None
      | EmptyString => None
      end
  end
with scan_elements (fuel : nat) (acc : list json) (s : string)
    : option (json * string) :=
  match fuel with
  | O => None
  | S fuel' =>
      match scan_value fuel' s with
      | Some (v, r) =>
          match skip_ws r with
          | String "]" r1 => Some (JArr (acc ++ [v]), r1)
          | String "," r1 => scan_elements fuel' (acc ++ [v]) (skip_ws r1)
          | _ => None
          end
      | None => None
      end
  end.

(** [json.loads(text)]: one value, surrounded by white space only.  A text
    that is not JSON raises a [ValueError] (its message is not modelled). *)
Definition json_loads (text : string) : exception + json :=
  match scan_value (2 * String.length text + 2) (skip_ws text) with
  | Some (v, r) =>
      match skip_ws r with
      | EmptyString => inr v
      | _ => inl (Exc ValueError "Extra data")
      end
  | None => inl (Exc ValueError "Expecting value")
  end.

(** ** Operations on decoded values *)

Fixpoint dict_get (m : list (string * json)) (k : string) : option json :=
  match m with
  | [] => None
  | (k', v) :: m' => if String.eqb k' k then Some v else dict_get m' k
  end.

(** [v[key]] for a str key. *)
Definition getitem (v : json) (key : string) : exception + json :=
  match v with
  | JObj m =>
      match dict_get m key with
      | Some x => inr x
      | None => inl (Exc KeyError (repr_str key))
      end
  | JArr _ => inl (Exc TypeError "list indices must be integers or slices, not str")
  | JStr _ => inl (Exc TypeError "string indices must be integers")
  | _ => inl (Exc TypeError "object is not subscriptable")
  end.

(** [key in v] for a str key: a key of a dict, an element of a list, a
    substring of a str. *)
Definition py_in (key : string) (v : json) : exception + bool :=
  match v with
  | JObj m => inr (match dict_get m key with Some _ => true | None => false end)
  | JArr l => inr (existsb (fun x => py_eq_str x key) l)
  | JStr s => inr (substring_of key s)
  | _ => inl (Exc TypeError "argument is not iterable")
  end.

(** [v.items()] *)
Definition items (v : json) : exception + list (string * json) :=
  match v with
  | JObj m => inr m
  | _ => inl (Exc AttributeError "object has no attribute 'items'")
  end.

(** A comprehension [{k: d for k, d in l if cond(k, d)}], which stops at
    the first entry whose condition raises. *)
Fixpoint comprehension (cond : string * json -> exception + bool)
    (l : list (string * json)) : exception + list (string * json) :=
  match l with
  | [] => inr []
  | kv :: l' =>
      match cond kv with
      | inl e => inl e
      | inr b =>
          match comprehension cond l' with
          | inl e => inl e
          | inr r => inr (if b then kv :: r else r)
          end
      end
  end.

(** ** re.match *)

(** The patterns of the model: literals, [.], alternation, groups and the
    quantifiers [*], [+] and [?].  A character of the model is a byte, so
    the model answers as Python does on ASCII text; [get_result_with]
    below takes the engine as a parameter instead. *)
Inductive regex : Type :=
| RNone
| REps
| RChar (c : ascii)
| RAny
| RAlt (r1 r2 : regex)
| RCat (r1 r2 : regex)
| RStar (r : regex).

Fixpoint nullable (r : regex) : bool :=
  match r with
  | RNone => false
  | REps => true
  | RChar _ => false
  | RAny => false
  | RAlt r1 r2 => nullable r1 || nullable r2
  | RCat r1 r2 => nullable r1 && nullable r2
  | RStar _ => true
  end.

(** What is left of [r] after the character [c]; [.] takes anything but a
    newline. *)
Fixpoint deriv (c : ascii) (r : regex) : regex :=
  match r with
  | RNone => RNone
  | REps => RNone
  | RChar d => if Ascii.eqb c d then REps else RNone
  | RAny => if Ascii.eqb c LF then RNone else REps
  | RAlt r1 r2 => RAlt (deriv c r1) (deriv c r2)
  | RCat r1 r2 =>
      if nullable r1 then RAlt (RCat (deriv c r1) r2) (deriv c r2)
      else RCat (deriv c r1) r2
  | RStar r1 => RCat (deriv c r1) (RStar r1)
  end.

(** [re.match] succeeds when the pattern matches some prefix of the text:
    the match starts at the first character and may end anywhere. *)
Fixpoint prefix_match (r : regex) (s : string) : bool :=
  nullable r ||
  match s with
  | String c s' => prefix_match (deriv c r) s'
  | EmptyString => false
  end.

Definition is_quantifier (c : ascii) : bool :=
  Ascii.eqb c "*" || Ascii.eqb c "+" || Ascii.eqb c "?".

Definition is_alnum (c : ascii) : bool :=
  is_digit c || (Ascii.leb "a" c && Ascii.leb c "z")
  || (Ascii.leb "A" c && Ascii.leb c "Z").

(** The characters with a meaning of their own in a pattern. *)
Definition is_special (c : ascii) : bool :=
  is_quantifier c || Ascii.eqb c "." || Ascii.eqb c "^" || Ascii.eqb c "$"
  || Ascii.eqb c "{" || Ascii.eqb c "}" || Ascii.eqb c "[" || Ascii.eqb c "]"
  || Ascii.eqb c backslash || Ascii.eqb c "|" || Ascii.eqb c "(" || Ascii.eqb c ")".

(** An optional quantifier after an atom, with its optional lazy mark; a
    second quantifier is the error "multiple repeat". *)
Definition quantified (a : regex) (s : string) : option (regex * string) :=
  match s with
  | String q s' =>
      if is_quantifier q then
        let r := if Ascii.eqb q "*" then RStar a
                 else if Ascii.eqb q "+" then RCat a (RStar a)
                 else RAlt a REps in
        let s'' := match s' with
                   | String "?" t => t
                   | _ => s'
                   end in
        match s'' with
        | String q' _ => if is_quantifier q' then None else Some (r, s'')
        | EmptyString => Some (r, s'')
        end
      else Some (a, s)
  | EmptyString => Some (a, s)
  end.

(** The parser: [parse_alt] reads branches separated by a bar, [parse_seq]
    one branch, up to a closing parenthesis or the end.  [None] is
    [re.error]; a pattern that uses syntax outside the model (classes,
    anchors, counted repeats, escapes of letters and digits, group
    extensions other than the non-capturing one) is refused as well. *)
Fixpoint parse_alt (fuel : nat) (s : string) : option (regex * string) :=
  match fuel with
  | O => None
  | S fuel' =>
      match parse_seq fuel' s with
      | Some (r, String "|" s') =>
          match parse_alt fuel' s' with
          | Some (r', s'') => Some (RAlt r r', s'')
          | None => None
          end
      | res => res
      end
  end
with parse_seq (fuel : nat) (s : string) : option (regex * string) :=
  match fuel with
  | O => None
  | S fuel' =>
      match s with
      | EmptyString => Some (REps, s)
      | String c s' =>
          if Ascii.eqb c "|" || Ascii.eqb c ")" then Some (REps, s)
          else
            let atom :=
              if Ascii.eqb c "(" then
                let body := match s' with
                            | String "?" (String ":" t) => Some t
                            | String "?" _ => None
                            | _ => Some s'
                            end in
                match body with
                | Some b =>
                    match parse_alt fuel' b with
                    | Some (r, String ")" t) => Some (r, t)
                    | _ => None
                    end
                | None => None
                end
              else if Ascii.eqb c "." then Some (RAny, s')
              else if Ascii.eqb c backslash then
                match s' with
                | String e t => if is_alnum e then None else Some (RChar e, t)
                | EmptyString => None
                end
              else if Ascii.eqb c "]" || Ascii.eqb c "}" then Some (RChar c, s')
              else if is_special c then None
              else Some (RChar c, s') in
            match atom with
            | Some (a, t) =>
                match quantified a t with
                | Some (a', t') =>
                    match parse_seq fuel' t' with
                    | Some (r, t'') => Some (RCat a' r, t'')
                    | None => None
                    end
                | None => None
                end
            | None => None
            end
      end
  end.

(** [re.compile(pattern)] *)
Definition re_compile (pattern : string) : exception + regex :=
  match parse_alt (2 * String.length pattern + 2) pattern with
  | Some (r, EmptyString) => inr r
  | Some (_, _) => inl (Exc ReError "unbalanced parenthesis")
  | None => inl (Exc ReError "bad pattern")
  end.

(** The truth value of [re.match(pattern, v)]: the pattern is compiled
    first, then the subject must be a str. *)
Definition re_match (pattern : string) (v : json) : exception + bool :=
  match re_compile pattern with
  | inl e => inl e
  | inr r =>
      match v with
      | JStr s => inr (prefix_match r s)
      | _ => inl (Exc TypeError "expected string or bytes-like object")
      end
  end.

(** ** PlayBookExecution *)

Record PlayBookExecution : Type := mkPlayBookExecution {
  rest_client : Client;
  play_uuid : json;
  result_task_pattern : string;
  playbook : string;
  params : json;
  querystr_dict : json
}.

(** [PlayBookExecution.__init__]: the identifier starts as ["-"]. *)
Definition PlayBookExecution_init (client : Client) (name : string)
    (result_pattern : string) (the_params querystr : json) : PlayBookExecution :=
  mkPlayBookExecution client (JStr "-") result_pattern name the_params querystr.

(** The state of a method of the handle: the object and the world. *)
Definition HandleState : Type := PlayBookExecution * World.

Definition get_self : M HandleState PlayBookExecution :=
  fun s => (inr (fst s), s).

(** The object with its identifier replaced. *)
Definition with_play_uuid (o : PlayBookExecution) (v : json) : PlayBookExecution :=
  mkPlayBookExecution (rest_client o) v (result_task_pattern o) (playbook o)
    (params o) (querystr_dict o).

(** [self.play_uuid = v] *)
Definition set_play_uuid (v : json) : M HandleState unit :=
  fun s => (inr tt, (with_play_uuid (fst s) v, snd s)).

Definition lift_result {S A} (r : exception + A) : M S A :=
  fun s => (r, s).

(** [except AnsibleRunnerServiceError] *)
Definition is_ansible_error (c : exc_class) : bool :=
  match c with
  | AnsibleRunnerServiceError => true
  | _ => false
  end.

Definition launch : M HandleState unit :=
  self <- get_self ;;
  let endpoint := PLAYBOOK_EXEC_URL ++ "/" ++ playbook self in
  response <- try_except
    (lift_world (http_post (rest_client self) endpoint (params self)
                   (querystr_dict self)))
    is_ansible_error
    (fun ex =>
       lift_world (log_write EXCEPTION "Error launching playbook <%s>"
                     [LStr (playbook self)]) ;;;
       raise ex) ;;
  if ok response then
    body <- lift_result (json_loads (text response)) ;;
    data <- lift_result (getitem body "data") ;;
    uuid <- lift_result (getitem data "play_uuid") ;;
    set_play_uuid uuid ;;;
    lift_world (log_write INFO "Playbook execution launched succesfuly" [])
  else
    raise (Exc AnsibleRunnerServiceError (reason response)).

(** [response = None; try: response = http_get(endpoint) except
    AnsibleRunnerServiceError: log.exception(fmt, playbook)] *)
Definition try_http_get (self : PlayBookExecution) (endpoint fmt : string)
    : M HandleState (option Response) :=
  try_except
    (r <- lift_world (http_get (rest_client self) endpoint) ;; ret (Some r))
    is_ansible_error
    (fun _ =>
       lift_world (log_write EXCEPTION fmt [LStr (playbook self)]) ;;;
       ret None).

(** [if response:] holds when the GET gave a response (the variable is not
    None) and that response is [ok]. *)
Definition get_status : M HandleState ExecutionStatusCode :=
  self <- get_self ;;
  status_value <-
    (if py_eq_str (play_uuid self) "-" then ret NOT_LAUNCHED
     else if py_eq_str (play_uuid self) "" then ret ERROR
     else
       let endpoint := PLAYBOOK_EXEC_URL ++ "/" ++ py_str (play_uuid self) in
       response <- try_http_get self endpoint "Error getting playbook <%s> status" ;;
       match response with
       | Some response =>
           if ok response then
             body <- lift_result (json_loads (text response)) ;;
             the_status <- lift_result (getitem body "msg") ;;
             if py_eq_str the_status "successful" then ret SUCCESS
             else if py_eq_str the_status "failed" then ret ERROR
             else ret ON_GOING
           else ret ERROR
       | None => ret ERROR
       end) ;;
  lift_world (log_write INFO "Requested playbook execution status is: %s"
                [LInt (status_number status_value)]) ;;;
  ret status_value.

(** The condition of the comprehension that filters by task:
    ["task" in data and re.match(pattern, data["task"])] *)
Definition task_cond (pattern : string) (kv : string * json) : exception + bool :=
  let data := snd kv in
  match py_in "task" data with
  | inl e => inl e
  | inr false => inr false
  | inr true =>
      match getitem data "task" with
      | inl e => inl e
      | inr t => re_match pattern t
      end
  end.

(** The condition of the comprehension that filters by event:
    [re.match(type_of_events, data['event'])] *)
Definition event_cond (type_of_events : string) (kv : string * json)
    : exception + bool :=
  let data := snd kv in
  match getitem data "event" with
  | inl e => inl e
  | inr ev => re_match type_of_events ev
  end.

(** [# Filter by task]: with a pattern, the comprehension over
    [events.items()]; without one, the events as they are. *)
Definition filter_by_task (pattern : string) (events : json) : exception + json :=
  if negb (String.eqb pattern "") then
    match items events with
    | inl e => inl e
    | inr l =>
        match comprehension (task_cond pattern) l with
        | inl e => inl e
        | inr l' => inr (JObj l')
        end
    end
  else inr events.

(** [# Filter by event]: with a non-empty list of names, the comprehension
    over [result_events.items()] with the names joined by a bar. *)
Definition filter_by_event (event_filter : list string) (result_events : json)
    : exception + json :=
  match event_filter with
  | _ :: _ =>
      let type_of_events := join "|" event_filter in
      match items result_events with
      | inl e => inl e
      | inr l =>
          match comprehension (event_cond type_of_events) l with
          | inl e => inl e
          | inr l' => inr (JObj l')
          end
      end
  | [] => inr result_events
  end.

(** The [else] branch of [get_result]: the events of the response,
    filtered by task, then by event. *)
Definition filter_events (self : PlayBookExecution) (event_filter : list string)
    (response : Response) : exception + json :=
  match json_loads (text response) with
  | inl e => inl e
  | inr body =>
      match getitem body "data" with
      | inl e => inl e
      | inr data =>
          match getitem data "events" with
          | inl e => inl e
          | inr events =>
              match filter_by_task (result_task_pattern self) events with
              | inl e => inl e
              | inr result_events => filter_by_event event_filter result_events
              end
          end
      end
  end.

(** [if not self.play_uuid] is the truth value of the identifier; [if not
    response] fails when the GET gave a response that is [ok]. *)
Definition get_result (event_filter : list string) : M HandleState json :=
  self <- get_self ;;
  if negb (py_truthy (play_uuid self)) then ret (JObj [])
  else
    response <- try_http_get self (PLAYBOOK_EVENTS (py_str (play_uuid self)))
                  "Error getting playbook <%s> result" ;;
    result_events <-
      match response with
      | Some response =>
          if ok response then lift_result (filter_events self event_filter response)
          else ret (JObj [])
      | None => ret (JObj [])
      end ;;
    lift_world (log_write INFO "Requested playbook result is: %s"
                  [LJsonDumps result_events]) ;;;
    ret result_events.

(** ** get_result over any regex engine *)

(** [re.match] belongs to Python's library, not to this module.  A regex
    engine gives, for a pattern and a subject, the truth value of
    [re.match(pattern, subject)], that is whether the pattern matches at
    the start of the subject, or the exception that the call raises. *)
Definition regex_engine : Type := string -> json -> exception + bool.

(** The definitions below are [task_cond], [event_cond], [filter_by_task],
    [filter_by_event], [filter_events] and [get_result] with the engine as
    a parameter in the place of the model [re_match]; at [re_match] they
    are the definitions above (lemma [get_result_with_model]). *)
Definition task_cond_with (re_match_fn : regex_engine) (pattern : string)
    (kv : string * json) : exception + bool :=
  let data := snd kv in
  match py_in "task" data with
  | inl e => inl e
  | inr false => inr false
  | inr true =>
      match getitem data "task" with
      | inl e => inl e
      | inr t => re_match_fn pattern t
      end
  end.

Definition event_cond_with (re_match_fn : regex_engine) (type_of_events : string)
    (kv : string * json) : exception + bool :=
  let data := snd kv in
  match getitem data "event" with
  | inl e => inl e
  | inr ev => re_match_fn type_of_events ev
  end.

Definition filter_by_task_with (re_match_fn : regex_engine) (pattern : string)
    (events : json) : exception + json :=
  if negb (String.eqb pattern "") then
    match items events with
    | inl e => inl e
    | inr l =>
        match comprehension (task_cond_with re_match_fn pattern) l with
        | inl e => inl e
        | inr l' => inr (JObj l')
        end
    end
  else inr events.

Definition filter_by_event_with (re_match_fn : regex_engine)
    (event_filter : list string) (result_events : json) : exception + json :=
  match event_filter with
  | _ :: _ =>
      let type_of_events := join "|" event_filter in
      match items result_events with
      | inl e => inl e
      | inr l =>
          match comprehension (event_cond_with re_match_fn type_of_events) l with
          | inl e => inl e
          | inr l' => inr (JObj l')
          end
      end
  | [] => inr result_events
  end.

Definition filter_events_with (re_match_fn : regex_engine) (self : PlayBookExecution)
    (event_filter : list string) (response : Response) : exception + json :=
  match json_loads (text response) with
  | inl e => inl e
  | inr body =>
      match getitem body "data" with
      | inl e => inl e
      | inr data =>
          match getitem data "events" with
          | inl e => inl e
          | inr events =>
              match filter_by_task_with re_match_fn (result_task_pattern self) events
              with
              | inl e => inl e
              | inr result_events =>
                  filter_by_event_with re_match_fn event_filter result_events
              end
          end
      end
  end.

Definition get_result_with (re_match_fn : regex_engine) (event_filter : list string)
    : M HandleState json :=
  self <- get_self ;;
  if negb (py_truthy (play_uuid self)) then ret (JObj [])
  else
    response <- try_http_get self (PLAYBOOK_EVENTS (py_str (play_uuid self)))
                  "Error getting playbook <%s> result" ;;
    result_events <-
      match response with
      | Some response =>
          if ok response
          then lift_result (filter_events_with re_match_fn self event_filter response)
          else ret (JObj [])
      | None => ret (JObj [])
      end ;;
    lift_world (log_write INFO "Requested playbook result is: %s"
                  [LJsonDumps result_events]) ;;;
    ret result_events.

(** ** Vocabulary of the statements *)

(** The calls that [http_get], [http_post] and [http_delete] hand to the
    HTTP stack. *)
Definition get_request (c : Client) (endpoint : string) : Request :=
  mkRequest GET (server_url c ++ "/" ++ endpoint) (verify_server c) (client_cert c)
    [] None None.

Definition post_request (c : Client) (endpoint : string) (payload params_dict : json)
    : Request :=
  mkRequest POST (server_url c ++ "/" ++ endpoint) (verify_server c) (client_cert c)
    [("Content-type", "application/json")] (Some payload) (Some params_dict).

Definition delete_request (c : Client) (endpoint : string) : Request :=
  mkRequest DELETE (server_url c ++ "/" ++ endpoint) (verify_server c) (client_cert c)
    [] None None.

(** An I/O-level failure: an instance of [RequestException] or [IOError]. *)
Definition io_level (f : stack_failure) : bool :=
  match f with
  | StackOther => false
  | _ => true
  end.

(** The class under which a failure of the stack leaves a decorated
    method. *)
Definition raised_class (f : stack_failure) : exc_class :=
  if io_level f then AnsibleRunnerServiceError else OtherException.

(** The world after one more call to the stack and some more log records. *)
Definition after_call (w : World) (rq : Request) (lg : list LogRecord) : World :=
  mkWorld (remote w) (sent w ++ [rq]) (log w ++ lg).

(** The endpoints of a handle. *)
Definition status_endpoint (h : PlayBookExecution) : string :=
  PLAYBOOK_EXEC_URL ++ "/" ++ py_str (play_uuid h).

Definition events_endpoint (h : PlayBookExecution) : string :=
  PLAYBOOK_EVENTS (py_str (play_uuid h)).

Definition launch_endpoint (h : PlayBookExecution) : string :=
  PLAYBOOK_EXEC_URL ++ "/" ++ playbook h.

(** The status that a [msg] text stands for. *)
Definition status_of_msg (m : json) : ExecutionStatusCode :=
  if py_eq_str m "successful" then SUCCESS
  else if py_eq_str m "failed" then ERROR
  else ON_GOING.

(** The outcome of [get_result] for a handle with a non-empty identifier,
    by the outcome of the GET. *)
Definition result_outcome (h : PlayBookExecution) (event_filter : list string)
    (o : stack_outcome) : exception + json :=
  match o with
  | Raises f msg => if io_level f then inr (JObj []) else inl (Exc OtherException msg)
  | Responds r => if ok r then filter_events h event_filter r else inr (JObj [])
  end.

(** [json.loads(response.text)["data"]["play_uuid"]] *)
Definition play_uuid_of (r : Response) : exception + json :=
  match json_loads (text r) with
  | inl e => inl e
  | inr body =>
      match getitem body "data" with
      | inl e => inl e
      | inr data => getitem data "play_uuid"
      end
  end.

(** [json.loads(response.text)["data"]["events"]] *)
Definition events_of (r : Response) : exception + json :=
  match json_loads (text r) with
  | inl e => inl e
  | inr body =>
      match getitem body "data" with
      | inl e => inl e
      | inr data => getitem data "events"
      end
  end.

(** [json.loads(response.text)["msg"]] *)
Definition msg_of (r : Response) : exception + json :=
  match json_loads (text r) with
  | inl e => inl e
  | inr body => getitem body "msg"
  end.

(** The outcome of [get_status] for a handle with an identifier, by the
    outcome of the GET. *)
Definition status_outcome (o : stack_outcome) : exception + ExecutionStatusCode :=
  match o with
  | Raises f msg => if io_level f then inr ERROR else inl (Exc OtherException msg)
  | Responds r =>
      if ok r then
        match msg_of r with
        | inl e => inl e
        | inr m => inr (status_of_msg m)
        end
      else inr ERROR
  end.

(** The outcome of [launch] and the object it leaves, by the outcome of
    the POST. *)
Definition launch_outcome (h : PlayBookExecution) (o : stack_outcome)
    : (exception + unit) * PlayBookExecution :=
  match o with
  | Raises f msg => (inl (Exc (raised_class f) msg), h)
  | Responds r =>
      if ok r then
        match play_uuid_of r with
        | inl e => (inl e, h)
        | inr u => (inr tt, with_play_uuid h u)
        end
      else (inl (Exc AnsibleRunnerServiceError (reason r)), h)
  end.

(** The POST that [launch] makes. *)
Definition launch_request (h : PlayBookExecution) : Request :=
  post_request (rest_client h) (launch_endpoint h) (params h) (querystr_dict h).

(** The HTTP stack of a world fails with nothing but [RequestException]
    and [IOError]. *)
Definition io_failures_only (w : World) : Prop :=
  forall hist rq msg, remote w hist rq <> Raises StackOther msg.

(** *** Patterns *)

(** The words a pattern matches in full. *)
Inductive matches : regex -> string -> Prop :=
| MEps : matches REps ""
| MChar (c : ascii) : matches (RChar c) (String c "")
| MAny (c : ascii) : c <> LF -> matches RAny (String c "")
| MAltL (r1 r2 : regex) (s : string) : matches r1 s -> matches (RAlt r1 r2) s
| MAltR (r1 r2 : regex) (s : string) : matches r2 s -> matches (RAlt r1 r2) s
| MCat (r1 r2 : regex) (s1 s2 : string) :
    matches r1 s1 -> matches r2 s2 -> matches (RCat r1 r2) (s1 ++ s2)
| MStarNil (r : regex) : matches (RStar r) ""
| MStarApp (r : regex) (s1 s2 : string) :
    matches r s1 -> matches (RStar r) s2 -> matches (RStar r) (s1 ++ s2).

(** The pattern of a text without special characters: the text itself. *)
Fixpoint literal (s : string) : regex :=
  match s with
  | EmptyString => REps
  | String c s' => RCat (RChar c) (literal s')
  end.

(** The pattern of such texts joined by bars. *)
Fixpoint literals (names : list string) : regex :=
  match names with
  | [] => REps
  | [n] => literal n
  | n :: l => RAlt (literal n) (literals l)
  end.

(** The first character of what follows an atom is no quantifier. *)
Definition no_quantifier_ahead (s : string) : Prop :=
  match s with
  | String c _ => is_quantifier c = false
  | EmptyString => True
  end.

(** What may follow a branch: nothing, or a bar. *)
Definition branch_end (rest : string) : Prop :=
  rest = "" \/ exists t, rest = String "|" t.

(** A text without special characters. *)
Fixpoint plain (s : string) : bool :=
  match s with
  | EmptyString => true
  | String c s' => negb (is_special c) && plain s'
  end.

(** *** Events *)

(** The str that a dict holds under a key, if it is a dict that holds
    one. *)
Definition str_field (key : string) (d : json) : option string :=
  match d with
  | JObj m =>
      match dict_get m key with
      | Some (JStr t) => Some t
      | _ => None
      end
  | _ => None
  end.

(** An event detail is a dict whose [task], if it has one, is a str. *)
Definition task_typed (d : json) : bool :=
  match d with
  | JObj m =>
      match dict_get m "task" with
      | Some (JStr _) | None => true
      | Some _ => false
      end
  | _ => false
  end.

(** An event detail is a dict whose [event] is a str. *)
Definition event_typed (d : json) : bool :=
  match str_field "event" d with
  | Some _ => true
  | None => false
  end.

(** The entry has a [task] of which the pattern matches a prefix. *)
Definition task_selected (r : regex) (kv : string * json) : bool :=
  match str_field "task" (snd kv) with
  | Some t => prefix_match r t
  | None => false
  end.

(** The entry has a [task] that starts with the text. *)
Definition task_starts_with (p : string) (kv : string * json) : bool :=
  match str_field "task" (snd kv) with
  | Some t => String.prefix p t
  | None => false
  end.

(** The entry has an [event] of which the pattern matches a prefix. *)
Definition event_selected (r : regex) (kv : string * json) : bool :=
  match str_field "event" (snd kv) with
  | Some ev => prefix_match r ev
  | None => false
  end.

(** The entry has an [event] that starts with one of the names. *)
Definition event_starts_with (names : list string) (kv : string * json) : bool :=
  match str_field "event" (snd kv) with
  | Some ev => existsb (fun n => String.prefix n ev) names
  | None => false
  end.

(** ** Sample data *)

Definition quoted (s : string) : string := String dquote (s ++ String dquote "").

Definition demo_client : Client :=
  Client_init "runner:5001" true None "client.crt" "client.key".

(** A service that gives the same answer to every request. *)
Definition answering (o : stack_outcome) : World := mkWorld (fun _ _ => o) [] [].

(** The text [{"msg": m}]. *)
Definition msg_body (m : string) : string :=
  "{" ++ quoted "msg" ++ ": " ++ quoted m ++ "}".

(** A handle as [__init__] leaves it, and one with an identifier. *)
Definition fresh_handle : PlayBookExecution :=
  PlayBookExecution_init demo_client "osd.yml" "" JNull JNull.

Definition handle_with (id pattern : string) : PlayBookExecution :=
  mkPlayBookExecution demo_client (JStr id) pattern "osd.yml" JNull JNull.

(** The JSON text of a sample value (its strings need no escape). *)
Fixpoint sample_text (v : json) : string :=
  match v with
  | JNull => "null"
  | JBool true => "true"
  | JBool false => "false"
  | JInt z => string_of_Z z
  | JFloat lx => lx
  | JStr s => quoted s
  | JArr l => "[" ++ join ", " (map sample_text l) ++ "]"
  | JObj m =>
      "{" ++ join ", " (map (fun kv => quoted (fst kv) ++ ": " ++ sample_text (snd kv)) m)
          ++ "}"
  end.

(** Three events of a run: two of the task the pattern below selects, one
    without a task. *)
Definition sample_events : list (string * json) :=
  [("1-a", JObj [("event", JStr "runner_on_ok"); ("task", JStr "Gathering Facts")]);
   ("2-b", JObj [("event", JStr "playbook_on_stats")]);
   ("3-c", JObj [("event", JStr "runner_on_failed"); ("task", JStr "Gathering Facts")]);
   ("4-d", JObj [("event", JStr "runner_on_ok"); ("task", JStr "Install")])].

(** The text [{"data": {"events": ...}}] of the events endpoint. *)
Definition events_body (events : json) : string :=
  sample_text (JObj [("data", JObj [("events", events)])]).

Definition events_response : Response :=
  mkResponse 200 "OK" (events_body (JObj sample_events)).

(** ** Vocabulary of the further properties *)

(** The level at which a transport method logs a response: info for the
    success code, error for any other status. *)
Definition response_log_level (r : Response) : log_level :=
  if status_code r =? codes_ok then INFO else ERROR_LEVEL.

(** The record that [get_status] writes before it returns. *)
Definition status_record (s : ExecutionStatusCode) : LogRecord :=
  mkLog INFO "Requested playbook execution status is: %s" [LInt (status_number s)].

(** The record that [launch] writes when the POST raised the transport
    error. *)
Definition launch_failure_record (h : PlayBookExecution) : LogRecord :=
  mkLog EXCEPTION "Error launching playbook <%s>" [LStr (playbook h)].

(** [launch()] followed by [get_status()], the second only if the first
    returns. *)
Definition launch_then_get_status : M HandleState ExecutionStatusCode :=
  launch ;;; get_status.

(** What a comprehension keeps of an entry: the entries whose condition
    is true. *)
Definition kept_by (cond : string * json -> exception + bool) (kv : string * json)
    : bool :=
  match cond kv with
  | inr true => true
  | _ => false
  end.

(** Two lists of names with the same members. *)
Definition same_names (l1 l2 : list string) : Prop :=
  forall n, In n l1 <-> In n l2.

(** ** Vocabulary of the filters over any regex engine *)

(** The entry has a str [task] on which [m] holds. *)
Definition task_matched (m : string -> bool) (kv : string * json) : bool :=
  match str_field "task" (snd kv) with
  | Some t => m t
  | None => false
  end.

(** The entry has a str [event] on which [m] holds. *)
Definition event_matched (m : string -> bool) (kv : string * json) : bool :=
  match str_field "event" (snd kv) with
  | Some ev => m ev
  | None => false
  end.

(** What [re.match] does with texts that have no special character: the
    match is looked for at the start of the subject, so names joined by
    bars match exactly the subjects that start with one of the names. *)
Definition matches_plain_names_at_start (re_match_fn : regex_engine) : Prop :=
  forall (names : list string) (t : string),
    names <> [] -> forallb plain names = true ->
    re_match_fn (join "|" names) (JStr t)
    = inr (existsb (fun n => String.prefix n t) names).

(** The outcome of [get_result_with] for a handle with a non-empty
    identifier, by the outcome of the GET. *)
Definition result_outcome_with (re_match_fn : regex_engine) (h : PlayBookExecution)
    (event_filter : list string) (o : stack_outcome) : exception + json :=
  match o with
  | Raises f msg => if io_level f then inr (JObj []) else inl (Exc OtherException msg)
  | Responds r =>
      if ok r then filter_events_with re_match_fn h event_filter r else inr (JObj [])
  end.

(** ** The transport client *)

Ltac run_transport :=
  unfold http_get, http_post, http_delete, handle_requests_exceptions, try_except,
    bind, requests_call, log_write, ret, raise, get_request, post_request,
    delete_request, after_call, raised_class in *.

Lemma http_get_responds (c : Client) (ep : string) (w : World) (r : Response) :
  remote w (sent w) (get_request c ep) = Responds r ->
  exists rec, http_get c ep w = (inr r, after_call w (get_request c ep) [rec]).
Proof.
  intros H. run_transport. rewrite H.
  destruct (negb (status_code r =? codes_ok)); simpl; eexists; reflexivity.
Qed.

Lemma http_get_raises (c : Client) (ep : string) (w : World) (f : stack_failure)
    (msg : string) :
  remote w (sent w) (get_request c ep) = Raises f msg ->
  http_get c ep w = (inl (Exc (raised_class f) msg), after_call w (get_request c ep) []).
Proof.
  intros H. run_transport. rewrite H. rewrite app_nil_r.
  destruct f; reflexivity.
Qed.

Lemma http_post_responds (c : Client) (ep : string) (p q : json) (w : World)
    (r : Response) :
  remote w (sent w) (post_request c ep p q) = Responds r ->
  exists rec, http_post c ep p q w = (inr r, after_call w (post_request c ep p q) [rec]).
Proof.
  intros H. run_transport. rewrite H.
  destruct (negb (status_code r =? codes_ok)); simpl; eexists; reflexivity.
Qed.

Lemma http_post_raises (c : Client) (ep : string) (p q : json) (w : World)
    (f : stack_failure) (msg : string) :
  remote w (sent w) (post_request c ep p q) = Raises f msg ->
  http_post c ep p q w
  = (inl (Exc (raised_class f) msg), after_call w (post_request c ep p q) []).
Proof.
  intros H. run_transport. rewrite H. rewrite app_nil_r.
  destruct f; reflexivity.
Qed.

Lemma http_delete_responds (c : Client) (ep : string) (w : World) (r : Response) :
  remote w (sent w) (delete_request c ep) = Responds r ->
  exists rec, http_delete c ep w = (inr r, after_call w (delete_request c ep) [rec]).
Proof.
  intros H. run_transport. rewrite H.
  destruct (negb (status_code r =? codes_ok)); simpl; eexists; reflexivity.
Qed.

Lemma http_delete_raises (c : Client) (ep : string) (w : World) (f : stack_failure)
    (msg : string) :
  remote w (sent w) (delete_request c ep) = Raises f msg ->
  http_delete c ep w
  = (inl (Exc (raised_class f) msg), after_call w (delete_request c ep) []).
Proof.
  intros H. run_transport. rewrite H. rewrite app_nil_r.
  destruct f; reflexivity.
Qed.

Lemma ok_codes_ok (r : Response) : status_code r = codes_ok -> ok r = true.
Proof. intros H. unfold ok. rewrite H. reflexivity. Qed.

(** What [is_operative] does for each outcome of the GET on the root. *)
Lemma is_operative_run (c : Client) (w : World) :
  fst (is_operative c w) =
  match remote w (sent w) (get_request c API_URL) with
  | Raises f msg => inl (Exc (raised_class f) msg)
  | Responds r => inr (status_code r =? codes_ok)
  end.
Proof.
  unfold is_operative, handle_requests_exceptions, try_except.
  unfold bind at 1.
  destruct (remote w (sent w) (get_request c API_URL)) as [f msg | r] eqn:E.
  - rewrite (http_get_raises _ _ _ _ _ E). destruct f; reflexivity.
  - destruct (http_get_responds _ _ _ _ E) as [rec ->].
    destruct (ok r) eqn:Hok; simpl; try reflexivity.
    destruct (status_code r =? codes_ok) eqn:Hs; try reflexivity.
    apply Z.eqb_eq in Hs. rewrite (ok_codes_ok _ Hs) in Hok. discriminate.
Qed.

(** C7: [is_operative] returns true exactly when the GET on the service
    root is answered with the success code; a response with any other
    status gives false, not an exception; and it raises the transport
    error exactly when the HTTP stack fails at the I/O level, with the
    message of that failure. *)
Theorem is_operative_true_iff_status_ok (c : Client) (w : World) :
  (fst (is_operative c w) = inr true <->
   exists r, remote w (sent w) (get_request c API_URL) = Responds r
             /\ status_code r = codes_ok)
  /\ (forall r, remote w (sent w) (get_request c API_URL) = Responds r ->
                status_code r <> codes_ok ->
                fst (is_operative c w) = inr false)
  /\ (forall msg, fst (is_operative c w) = inl (Exc AnsibleRunnerServiceError msg) <->
                  exists f, io_level f = true
                            /\ remote w (sent w) (get_request c API_URL) = Raises f msg).
Proof.
  rewrite is_operative_run.
  destruct (remote w (sent w) (get_request c API_URL)) as [f m | r] eqn:E.
  - split; [| split].
    + split; [discriminate | intros (r & H & _); discriminate].
    + intros r H; discriminate.
    + intros msg. split.
      * intros H. exists f. unfold raised_class in H.
        destruct (io_level f); [| discriminate].
        split; [reflexivity |]. congruence.
      * intros (f' & Hio & H). injection H as -> ->.
        unfold raised_class. rewrite Hio. reflexivity.
  - split; [| split].
    + split.
      * intros H. exists r. split; [reflexivity |].
        apply Z.eqb_eq. congruence.
      * intros (r' & H & Hs). injection H as <-.
        apply Z.eqb_eq in Hs. rewrite Hs. reflexivity.
    + intros r' H Hs. injection H as <-.
      apply Z.eqb_neq in Hs. rewrite Hs. reflexivity.
    + intros msg. split; [discriminate | intros (f & _ & H); discriminate].
Qed.

Lemma is_operative_true_iff_status_ok_witness :
  fst (is_operative demo_client (answering (Responds (mkResponse 200 "OK" "")))) = inr true
  /\ fst (is_operative demo_client
            (answering (Responds (mkResponse 503 "SERVICE UNAVAILABLE" "")))) = inr false
  /\ fst (is_operative demo_client (answering (Raises StackRequestException "refused")))
     = inl (Exc AnsibleRunnerServiceError "refused").
Proof.
  split; [| split].
  - apply (is_operative_true_iff_status_ok demo_client
             (answering (Responds (mkResponse 200 "OK" "")))).
    exists (mkResponse 200 "OK" ""). split; reflexivity.
  - apply (proj1 (proj2 (is_operative_true_iff_status_ok demo_client
             (answering (Responds (mkResponse 503 "SERVICE UNAVAILABLE" "")))))
             (mkResponse 503 "SERVICE UNAVAILABLE" "")).
    + reflexivity.
    + vm_compute. discriminate.
  - apply (proj2 (proj2 (is_operative_true_iff_status_ok demo_client
             (answering (Raises StackRequestException "refused"))))).
    exists StackRequestException. split; reflexivity.
Defined.

(** C8: in [http_get], [http_post] and [http_delete] an I/O-level exception
    of the HTTP stack leaves the method as the transport error that
    carries its message, and a response leaves it as the returned value
    whatever its status, 4xx and 5xx included. *)
Theorem transport_wraps_io_errors_returns_responses (c : Client) (ep : string)
    (payload params_dict : json) (w : World) :
  (forall f msg, io_level f = true ->
     (remote w (sent w) (get_request c ep) = Raises f msg ->
      fst (http_get c ep w) = inl (Exc AnsibleRunnerServiceError msg))
     /\ (remote w (sent w) (post_request c ep payload params_dict) = Raises f msg ->
         fst (http_post c ep payload params_dict w)
         = inl (Exc AnsibleRunnerServiceError msg))
     /\ (remote w (sent w) (delete_request c ep) = Raises f msg ->
         fst (http_delete c ep w) = inl (Exc AnsibleRunnerServiceError msg)))
  /\ (forall r,
     (remote w (sent w) (get_request c ep) = Responds r ->
      fst (http_get c ep w) = inr r)
     /\ (remote w (sent w) (post_request c ep payload params_dict) = Responds r ->
         fst (http_post c ep payload params_dict w) = inr r)
     /\ (remote w (sent w) (delete_request c ep) = Responds r ->
         fst (http_delete c ep w) = inr r)).
Proof.
  split.
  - intros f msg Hio. unfold raised_class.
    split; [| split]; intros H.
    + rewrite (http_get_raises _ _ _ _ _ H). unfold raised_class.
      rewrite Hio. reflexivity.
    + rewrite (http_post_raises _ _ _ _ _ _ _ H). unfold raised_class.
      rewrite Hio. reflexivity.
    + rewrite (http_delete_raises _ _ _ _ _ H). unfold raised_class.
      rewrite Hio. reflexivity.
  - intros r. split; [| split]; intros H.
    + destruct (http_get_responds _ _ _ _ H) as [rec ->]. reflexivity.
    + destruct (http_post_responds _ _ _ _ _ _ H) as [rec ->]. reflexivity.
    + destruct (http_delete_responds _ _ _ _ H) as [rec ->]. reflexivity.
Qed.

Lemma transport_wraps_io_errors_returns_responses_witness :
  fst (http_get demo_client "api" (answering (Raises StackIOError "timed out")))
  = inl (Exc AnsibleRunnerServiceError "timed out")
  /\ fst (http_post demo_client "api/v1/playbooks/osd.yml" JNull JNull
            (answering (Responds (mkResponse 404 "NOT FOUND" ""))))
     = inr (mkResponse 404 "NOT FOUND" "")
  /\ fst (http_delete demo_client "api" (answering (Responds (mkResponse 500 "ERROR" ""))))
     = inr (mkResponse 500 "ERROR" "").
Proof.
  split; [| split].
  - apply (proj1 (transport_wraps_io_errors_returns_responses demo_client "api"
             JNull JNull (answering (Raises StackIOError "timed out")))
             StackIOError "timed out"); reflexivity.
  - apply (proj2 (transport_wraps_io_errors_returns_responses demo_client
             "api/v1/playbooks/osd.yml" JNull JNull
             (answering (Responds (mkResponse 404 "NOT FOUND" ""))))
             (mkResponse 404 "NOT FOUND" "")); reflexivity.
  - apply (proj2 (transport_wraps_io_errors_returns_responses demo_client "api"
             JNull JNull (answering (Responds (mkResponse 500 "ERROR" ""))))
             (mkResponse 500 "ERROR" "")); reflexivity.
Defined.

(** ** Floats *)

(** The text and the truth value of floats as Python 3 gives them: the
    shortest decimal that reads back, an exponent from [1e+16] up and from
    [1e-05] down, zero for a literal that underflows, and [nan] and the
    infinities true. *)
Lemma float_examples :
  py_str (JFloat "1.50") = "1.5"
  /\ py_str (JFloat "1e2") = "100.0"
  /\ py_str (JFloat "0.1") = "0.1"
  /\ py_str (JFloat "0.30000000000000004") = "0.30000000000000004"
  /\ py_str (JFloat "1e15") = "1000000000000000.0"
  /\ py_str (JFloat "1e16") = "1e+16"
  /\ py_str (JFloat "0.0001") = "0.0001"
  /\ py_str (JFloat "0.00001") = "1e-05"
  /\ py_str (JFloat "9007199254740993.0") = "9007199254740992.0"
  /\ py_str (JFloat "-0.0") = "-0.0"
  /\ py_str (JFloat "1e400") = "inf"
  /\ py_str (JFloat "1e-400") = "0.0"
  /\ py_truthy (JFloat "1e-400") = false
  /\ py_truthy (JFloat "0.0") = false
  /\ py_truthy (JFloat "5e-324") = true
  /\ py_truthy (JFloat "nan") = true
  /\ py_truthy (JFloat "inf") = true.
Proof. repeat split; vm_compute; reflexivity. Qed.

(** ** The execution handle *)

Lemma py_eq_str_true (v : json) (s : string) : py_eq_str v s = true <-> v = JStr s.
Proof.
  destruct v; simpl; try (split; [discriminate | intros H; discriminate]).
  rewrite String.eqb_eq. split; congruence.
Qed.

Lemma py_eq_str_false (v : json) (s : string) : py_eq_str v s = false <-> v <> JStr s.
Proof.
  rewrite <- py_eq_str_true. destruct (py_eq_str v s); split; congruence.
Qed.

Ltac run_handle :=
  unfold try_http_get, try_except, lift_world, lift_result, bind, ret, raise,
    get_self, set_play_uuid, log_write; simpl.

Lemma try_http_get_responds (h o : PlayBookExecution) (ep fmt : string) (w : World)
    (r : Response) :
  remote w (sent w) (get_request (rest_client h) ep) = Responds r ->
  exists lg, try_http_get h ep fmt (o, w)
             = (inr (Some r), (o, after_call w (get_request (rest_client h) ep) lg)).
Proof.
  intros H. run_handle.
  destruct (http_get_responds _ _ _ _ H) as [rec ->]. simpl.
  eexists. reflexivity.
Qed.

Lemma try_http_get_io_failure (h o : PlayBookExecution) (ep fmt : string) (w : World)
    (f : stack_failure) (msg : string) :
  remote w (sent w) (get_request (rest_client h) ep) = Raises f msg ->
  io_level f = true ->
  exists lg, try_http_get h ep fmt (o, w)
             = (inr None, (o, after_call w (get_request (rest_client h) ep) lg)).
Proof.
  intros H Hio. run_handle.
  rewrite (http_get_raises _ _ _ _ _ H). unfold raised_class. rewrite Hio. simpl.
  eexists. unfold after_call. simpl. rewrite app_nil_r. reflexivity.
Qed.

Lemma try_http_get_other_failure (h o : PlayBookExecution) (ep fmt : string)
    (w : World) (f : stack_failure) (msg : string) :
  remote w (sent w) (get_request (rest_client h) ep) = Raises f msg ->
  io_level f = false ->
  try_http_get h ep fmt (o, w)
  = (inl (Exc OtherException msg), (o, after_call w (get_request (rest_client h) ep) [])).
Proof.
  intros H Hio. run_handle.
  rewrite (http_get_raises _ _ _ _ _ H). unfold raised_class. rewrite Hio. simpl.
  reflexivity.
Qed.

Lemma get_status_run (h : PlayBookExecution) (w : World) :
  play_uuid h <> JStr "-" -> play_uuid h <> JStr "" ->
  exists lg,
    get_status (h, w)
    = (status_outcome (remote w (sent w) (get_request (rest_client h) (status_endpoint h))),
       (h, after_call w (get_request (rest_client h) (status_endpoint h)) lg)).
Proof.
  intros H1 H2. apply py_eq_str_false in H1, H2.
  unfold get_status, bind, get_self. cbn [fst snd].
  rewrite H1, H2. fold (status_endpoint h).
  destruct (remote w (sent w) (get_request (rest_client h) (status_endpoint h)))
    as [f msg | r] eqn:E.
  - destruct (io_level f) eqn:Hio.
    + destruct (try_http_get_io_failure h h _ "Error getting playbook <%s> status" _ _ _ E Hio)
        as [lg ->].
      unfold status_outcome. rewrite Hio. unfold ret, lift_world, log_write, after_call.
      cbn [fst snd remote sent log]. rewrite <- app_assoc. eexists. reflexivity.
    + rewrite (try_http_get_other_failure h h _ _ _ _ _ E Hio).
      unfold status_outcome. rewrite Hio. eexists. reflexivity.
  - destruct (try_http_get_responds h h _ "Error getting playbook <%s> status" _ _ E)
      as [lg ->].
    unfold status_outcome, msg_of, status_of_msg, ret, lift_world, lift_result,
      log_write, after_call.
    destruct (ok r);
      [destruct (json_loads (text r)) as [e | body];
       [| destruct (getitem body "msg") as [e | m];
          [| destruct (py_eq_str m "successful");
             [| destruct (py_eq_str m "failed")]]] |];
      cbn [fst snd remote sent log]; try rewrite <- app_assoc; eexists; reflexivity.
Qed.

Lemma get_result_run (ef : list string) (h : PlayBookExecution) (w : World) :
  py_truthy (play_uuid h) = true ->
  exists lg,
    get_result ef (h, w)
    = (result_outcome h ef
         (remote w (sent w) (get_request (rest_client h) (events_endpoint h))),
       (h, after_call w (get_request (rest_client h) (events_endpoint h)) lg)).
Proof.
  intros H.
  unfold get_result, bind, get_self. cbn [fst snd].
  rewrite H. cbn [negb]. fold (events_endpoint h).
  destruct (remote w (sent w) (get_request (rest_client h) (events_endpoint h)))
    as [f msg | r] eqn:E.
  - destruct (io_level f) eqn:Hio.
    + destruct (try_http_get_io_failure h h _ "Error getting playbook <%s> result" _ _ _ E Hio)
        as [lg ->].
      unfold result_outcome. rewrite Hio. unfold ret, lift_world, log_write, after_call.
      cbn [fst snd remote sent log]. rewrite <- app_assoc. eexists. reflexivity.
    + rewrite (try_http_get_other_failure h h _ _ _ _ _ E Hio).
      unfold result_outcome. rewrite Hio. eexists. reflexivity.
  - destruct (try_http_get_responds h h _ "Error getting playbook <%s> result" _ _ E)
      as [lg ->].
    unfold result_outcome, ret, lift_world, lift_result, log_write, after_call.
    destruct (ok r); [destruct (filter_events h ef r) as [e | v] |];
      cbn [fst snd remote sent log]; try rewrite <- app_assoc; eexists; reflexivity.
Qed.

(** Without an identifier (the empty string, or any other false value)
    [get_result] returns the empty mapping and leaves the world alone. *)
Lemma get_result_no_identifier (ef : list string) (h : PlayBookExecution) (w : World) :
  py_truthy (play_uuid h) = false ->
  get_result ef (h, w) = (inr (JObj []), (h, w)).
Proof.
  intros H. unfold get_result, bind, get_self. cbn [fst snd].
  rewrite H. reflexivity.
Qed.

Lemma launch_run (h : PlayBookExecution) (w : World) :
  exists lg,
    launch (h, w)
    = (fst (launch_outcome h (remote w (sent w) (launch_request h))),
       (snd (launch_outcome h (remote w (sent w) (launch_request h))),
        after_call w (launch_request h) lg)).
Proof.
  unfold launch, bind, get_self, try_except, lift_world. cbn [fst snd].
  fold (launch_endpoint h). unfold launch_request.
  destruct (remote w (sent w)
              (post_request (rest_client h) (launch_endpoint h) (params h)
                 (querystr_dict h))) as [f msg | r] eqn:E.
  - rewrite (http_post_raises _ _ _ _ _ _ _ E). unfold launch_outcome, raised_class.
    destruct f; cbn; unfold after_call; cbn; try rewrite <- app_assoc;
      eexists; reflexivity.
  - destruct (http_post_responds _ _ _ _ _ _ E) as [rec ->].
    unfold launch_outcome, play_uuid_of, lift_result, set_play_uuid, log_write, ret,
      raise, after_call.
    destruct (ok r);
      [destruct (json_loads (text r)) as [e | body];
       [| destruct (getitem body "data") as [e | data];
          [| destruct (getitem data "play_uuid") as [e | u]]] |];
      cbn [fst snd remote sent log]; try rewrite <- app_assoc; eexists; reflexivity.
Qed.

(** C1 (as amended): [get_status] returns NOT_LAUNCHED exactly for the
    identifier ["-"]; it returns ERROR for the empty identifier; for any
    other identifier it makes exactly one call, a GET on the status
    endpoint, returns ERROR when that GET fails at the I/O level, and when
    a response that is not an HTTP error carries a [msg], returns SUCCESS
    for ["successful"], ERROR for ["failed"] and ON_GOING for anything
    else. *)
Theorem get_status_by_identifier (h : PlayBookExecution) (w : World) :
  (fst (get_status (h, w)) = inr NOT_LAUNCHED <-> play_uuid h = JStr "-")
  /\ (play_uuid h = JStr "" -> fst (get_status (h, w)) = inr ERROR)
  /\ (play_uuid h <> JStr "-" -> play_uuid h <> JStr "" ->
      sent (snd (snd (get_status (h, w))))
      = (sent w ++ [get_request (rest_client h) (status_endpoint h)])%list
      /\ (forall f msg,
            remote w (sent w) (get_request (rest_client h) (status_endpoint h))
            = Raises f msg ->
            io_level f = true ->
            fst (get_status (h, w)) = inr ERROR)
      /\ (forall r m,
            remote w (sent w) (get_request (rest_client h) (status_endpoint h))
            = Responds r ->
            ok r = true ->
            msg_of r = inr m ->
            (m = JStr "successful" -> fst (get_status (h, w)) = inr SUCCESS)
            /\ (m = JStr "failed" -> fst (get_status (h, w)) = inr ERROR)
            /\ (m <> JStr "successful" -> m <> JStr "failed" ->
                fst (get_status (h, w)) = inr ON_GOING))).
Proof.
  assert (Hsentinel : play_uuid h = JStr "-" -> fst (get_status (h, w)) = inr NOT_LAUNCHED).
  { intros H. unfold get_status, bind, get_self. cbn [fst snd]. rewrite H. reflexivity. }
  assert (Hempty : play_uuid h = JStr "" -> fst (get_status (h, w)) = inr ERROR).
  { intros H. unfold get_status, bind, get_self. cbn [fst snd]. rewrite H. reflexivity. }
  assert (Hrun : play_uuid h <> JStr "-" -> play_uuid h <> JStr "" ->
                 sent (snd (snd (get_status (h, w))))
                 = (sent w ++ [get_request (rest_client h) (status_endpoint h)])%list
                 /\ fst (get_status (h, w))
                    = status_outcome
                        (remote w (sent w)
                           (get_request (rest_client h) (status_endpoint h)))).
  { intros H1 H2. destruct (get_status_run h w H1 H2) as [lg ->]. split; reflexivity. }
  split; [| split].
  - split; [| exact Hsentinel].
    intros H.
    destruct (py_eq_str (play_uuid h) "-") eqn:E1; [apply py_eq_str_true; exact E1 |].
    apply py_eq_str_false in E1.
    destruct (py_eq_str (play_uuid h) "") eqn:E2.
    + apply py_eq_str_true in E2. rewrite (Hempty E2) in H. discriminate.
    + apply py_eq_str_false in E2. destruct (Hrun E1 E2) as [_ Hout].
      rewrite Hout in H. unfold status_outcome, status_of_msg in H.
      destruct (remote w (sent w) (get_request (rest_client h) (status_endpoint h)))
        as [f msg | r].
      * destruct (io_level f); discriminate.
      * destruct (ok r); [| discriminate].
        destruct (msg_of r) as [e | m]; [discriminate |].
        destruct (py_eq_str m "successful"); [discriminate |].
        destruct (py_eq_str m "failed"); discriminate.
  - exact Hempty.
  - intros H1 H2. destruct (Hrun H1 H2) as [Hsent Hout].
    split; [exact Hsent |]. rewrite Hout. split.
    + intros f msg E Hio. rewrite E. simpl. rewrite Hio. reflexivity.
    + intros r m E Hok Hm. rewrite E. unfold status_outcome, status_of_msg.
      rewrite Hok, Hm. split; [| split].
      * intros ->. reflexivity.
      * intros ->. reflexivity.
      * intros N1 N2. apply py_eq_str_false in N1, N2. rewrite N1, N2. reflexivity.
Qed.

Lemma get_status_by_identifier_witness :
  fst (get_status (fresh_handle, answering (Raises StackIOError "unreachable")))
  = inr NOT_LAUNCHED
  /\ fst (get_status (handle_with "" "", answering (Raises StackIOError "unreachable")))
     = inr ERROR
  /\ fst (get_status (handle_with "abc" "",
                      answering (Responds (mkResponse 200 "OK" (msg_body "running")))))
     = inr ON_GOING.
Proof.
  split; [| split].
  - apply (get_status_by_identifier fresh_handle
             (answering (Raises StackIOError "unreachable"))).
    reflexivity.
  - apply (get_status_by_identifier (handle_with "" "")
             (answering (Raises StackIOError "unreachable"))).
    reflexivity.
  - destruct (get_status_by_identifier (handle_with "abc" "")
                (answering (Responds (mkResponse 200 "OK" (msg_body "running")))))
      as (_ & _ & H).
    destruct (H ltac:(discriminate) ltac:(discriminate)) as (_ & _ & Hm).
    destruct (Hm (mkResponse 200 "OK" (msg_body "running")) (JStr "running")
                eq_refl eq_refl ltac:(vm_compute; reflexivity)) as (_ & _ & Hg).
    apply Hg; discriminate.
Defined.

(** C1, as stated, fails: ERROR is also the status of a handle whose
    identifier is not the empty string, here when the service reports
    ["failed"]. *)
Lemma get_status_error_with_identifier :
  fst (get_status (handle_with "abc" "",
                   answering (Responds (mkResponse 200 "OK" (msg_body "failed")))))
  = inr ERROR
  /\ play_uuid (handle_with "abc" "") <> JStr "".
Proof. split; [vm_compute; reflexivity | discriminate]. Qed.

(** C10 (as amended): with an identifier, a response with an HTTP error
    status (400 to 599) to the status GET gives ERROR, whatever its body
    says. *)
Theorem get_status_http_error_gives_error (h : PlayBookExecution) (w : World)
    (r : Response) :
  play_uuid h <> JStr "-" -> play_uuid h <> JStr "" ->
  remote w (sent w) (get_request (rest_client h) (status_endpoint h)) = Responds r ->
  400 <= status_code r < 600 ->
  fst (get_status (h, w)) = inr ERROR.
Proof.
  intros H1 H2 E Hs. destruct (get_status_run h w H1 H2) as [lg ->].
  cbn [fst]. rewrite E. unfold status_outcome, ok.
  replace (400 <=? status_code r) with true by (symmetry; apply Z.leb_le; lia).
  replace (status_code r <? 600) with true by (symmetry; apply Z.ltb_lt; lia).
  reflexivity.
Qed.

Lemma get_status_http_error_gives_error_witness :
  fst (get_status (handle_with "abc" "",
                   answering (Responds (mkResponse 404 "NOT FOUND" (msg_body "successful")))))
  = inr ERROR.
Proof.
  apply (get_status_http_error_gives_error (handle_with "abc" "")
           (answering (Responds (mkResponse 404 "NOT FOUND" (msg_body "successful"))))
           (mkResponse 404 "NOT FOUND" (msg_body "successful")));
    solve [discriminate | reflexivity | simpl; lia].
Defined.

(** C10, as stated, fails: a response whose status is not the success code
    but is no HTTP error either (202, 302) has its [msg] read. *)
Lemma get_status_reads_msg_of_non_200 :
  202 <> codes_ok /\ 302 <> codes_ok
  /\ fst (get_status (handle_with "abc" "",
                      answering (Responds (mkResponse 202 "ACCEPTED" (msg_body "successful")))))
     = inr SUCCESS
  /\ fst (get_status (handle_with "abc" "",
                      answering (Responds (mkResponse 302 "FOUND" (msg_body "successful")))))
     = inr SUCCESS.
Proof.
  repeat split; solve [discriminate | vm_compute; reflexivity].
Qed.

(** C4: when the POST of [launch] is answered by a response that is not
    [ok] (a 404, say), [launch] raises the transport error with the reason
    phrase of the response and leaves the identifier, and the rest of the
    object, as they were. *)
Theorem launch_error_response_raises_reason (h : PlayBookExecution) (w : World)
    (r : Response) :
  remote w (sent w) (launch_request h) = Responds r ->
  ok r = false ->
  fst (launch (h, w)) = inl (Exc AnsibleRunnerServiceError (reason r))
  /\ play_uuid (fst (snd (launch (h, w)))) = play_uuid h
  /\ fst (snd (launch (h, w))) = h.
Proof.
  intros E Hok. destruct (launch_run h w) as [lg ->].
  cbn [fst snd]. rewrite E. unfold launch_outcome. rewrite Hok.
  repeat split.
Qed.

Lemma launch_error_response_raises_reason_witness :
  fst (launch (fresh_handle, answering (Responds (mkResponse 404 "NOT FOUND" ""))))
  = inl (Exc AnsibleRunnerServiceError "NOT FOUND")
  /\ play_uuid (fst (snd (launch (fresh_handle,
                                  answering (Responds (mkResponse 404 "NOT FOUND" ""))))))
     = JStr "-".
Proof.
  destruct (launch_error_response_raises_reason fresh_handle
              (answering (Responds (mkResponse 404 "NOT FOUND" "")))
              (mkResponse 404 "NOT FOUND" "") eq_refl eq_refl) as (H1 & H2 & _).
  split; [exact H1 | exact H2].
Defined.

(** On a response that is [ok] and carries [data.play_uuid], [launch]
    stores that identifier. *)
Lemma launch_stores_identifier (h : PlayBookExecution) (w : World) (r : Response)
    (u : json) :
  remote w (sent w) (launch_request h) = Responds r ->
  ok r = true ->
  play_uuid_of r = inr u ->
  fst (launch (h, w)) = inr tt /\ fst (snd (launch (h, w))) = with_play_uuid h u.
Proof.
  intros E Hok Hu. destruct (launch_run h w) as [lg ->].
  cbn [fst snd]. rewrite E. unfold launch_outcome. rewrite Hok, Hu.
  split; reflexivity.
Qed.

(** C2 (the code at the failing input): a handle as [__init__] leaves it
    holds the identifier ["-"], which is not false, so [get_result] does
    call the service, with a GET on [api/v1/jobs/-/events], and returns
    what the answer gives. *)
Theorem get_result_fresh_handle_calls_service (c : Client) (name pattern : string)
    (p q : json) (ef : list string) (w : World) :
  let h := PlayBookExecution_init c name pattern p q in
  sent (snd (snd (get_result ef (h, w))))
  = (sent w ++ [get_request c "api/v1/jobs/-/events"])%list
  /\ fst (get_result ef (h, w))
     = result_outcome h ef (remote w (sent w) (get_request c "api/v1/jobs/-/events")).
Proof.
  intros h. destruct (get_result_run ef h w eq_refl) as [lg ->].
  split; reflexivity.
Qed.

(** The same on sample data: the events of the answer are returned. *)
Lemma get_result_fresh_handle_example :
  fst (get_result [] (fresh_handle, answering (Responds events_response)))
  = inr (JObj sample_events)
  /\ sent (snd (snd (get_result [] (fresh_handle, answering (Responds events_response)))))
     = [get_request demo_client "api/v1/jobs/-/events"].
Proof. split; vm_compute; reflexivity. Qed.

(** The events that [filter_events] filters are those of the response. *)
Lemma filter_events_run (h : PlayBookExecution) (ef : list string) (r : Response) :
  filter_events h ef r
  = match events_of r with
    | inl e => inl e
    | inr events =>
        match filter_by_task (result_task_pattern h) events with
        | inl e => inl e
        | inr result_events => filter_by_event ef result_events
        end
    end.
Proof.
  unfold filter_events, events_of.
  destruct (json_loads (text r)) as [e | body]; [reflexivity |].
  destruct (getitem body "data") as [e | data]; reflexivity.
Qed.

(** C9: with an identifier, no task pattern and an empty event filter,
    [get_result] returns the [data.events] value of the response to the
    GET on the events endpoint as it is. *)
Theorem get_result_unfiltered_returns_events (h : PlayBookExecution) (w : World)
    (r : Response) (events : json) :
  py_truthy (play_uuid h) = true ->
  result_task_pattern h = "" ->
  remote w (sent w) (get_request (rest_client h) (events_endpoint h)) = Responds r ->
  ok r = true ->
  events_of r = inr events ->
  fst (get_result [] (h, w)) = inr events.
Proof.
  intros Hid Hpat E Hok He.
  destruct (get_result_run [] h w Hid) as [lg ->]. cbn [fst].
  rewrite E. unfold result_outcome. rewrite Hok, filter_events_run, He, Hpat.
  reflexivity.
Qed.

Lemma get_result_unfiltered_returns_events_witness :
  fst (get_result [] (handle_with "abc" "", answering (Responds events_response)))
  = inr (JObj sample_events).
Proof.
  apply (get_result_unfiltered_returns_events (handle_with "abc" "")
           (answering (Responds events_response)) events_response (JObj sample_events));
    vm_compute; reflexivity.
Defined.

(** ** Patterns: the matcher is a prefix matcher *)

Lemma append_empty_r (s : string) : s ++ "" = s.
Proof. induction s as [| c s IH]; simpl; [reflexivity | rewrite IH; reflexivity]. Qed.

Lemma append_eq_empty (s t : string) : s ++ t = "" -> s = "" /\ t = "".
Proof. destruct s; simpl; intros H; [split; [reflexivity | exact H] | discriminate]. Qed.

Lemma length_app_string (s t : string) :
  String.length (s ++ t) = (String.length s + String.length t)%nat.
Proof. induction s as [| c s IH]; simpl; [reflexivity | rewrite IH; reflexivity]. Qed.

Lemma nullable_matches (r : regex) : nullable r = true <-> matches r "".
Proof.
  induction r as [| | c | | r1 IH1 r2 IH2 | r1 IH1 r2 IH2 | r IH]; simpl.
  - split; [discriminate | intros H; inversion H].
  - split; [intros _; constructor | reflexivity].
  - split; [discriminate | intros H; inversion H].
  - split; [discriminate | intros H; inversion H].
  - rewrite orb_true_iff, IH1, IH2. split.
    + intros [H | H]; [apply MAltL | apply MAltR]; exact H.
    + intros H. inversion H; subst; [left | right]; assumption.
  - rewrite andb_true_iff, IH1, IH2. split.
    + intros [H1 H2]. apply (MCat r1 r2 "" "" H1 H2).
    + intros H. inversion H as [| | | | | ? ? s1 s2 H1 H2 Hr Hs | |]; subst.
      apply append_eq_empty in Hs. destruct Hs as [-> ->]. split; assumption.
  - split; [intros _; constructor | reflexivity].
Qed.

Lemma matches_deriv (r : regex) (t : string) :
  matches r t -> forall c s, t = String c s -> matches (deriv c r) s.
Proof.
  induction 1 as [| d | d Hd | r1 r2 t H IH | r1 r2 t H IH
                  | r1 r2 s1 s2 H1 IH1 H2 IH2 | r | r s1 s2 H1 IH1 H2 IH2];
    intros c s E; simpl.
  - discriminate.
  - injection E as -> <-. rewrite Ascii.eqb_refl. constructor.
  - injection E as -> <-.
    destruct (Ascii.eqb c LF) eqn:F; [apply Ascii.eqb_eq in F; contradiction |].
    constructor.
  - apply MAltL. apply IH. exact E.
  - apply MAltR. apply IH. exact E.
  - destruct s1 as [| c1 s1'].
    + simpl in E. apply nullable_matches in H1. rewrite H1.
      apply MAltR. apply IH2. exact E.
    + simpl in E. injection E as -> <-.
      assert (Hc : matches (RCat (deriv c r1) r2) (s1' ++ s2)).
      { apply MCat; [apply IH1; reflexivity | exact H2]. }
      destruct (nullable r1); [apply MAltL |]; exact Hc.
  - discriminate.
  - destruct s1 as [| c1 s1'].
    + simpl in E. apply (IH2 c s E).
    + simpl in E. injection E as -> <-.
      apply MCat; [apply IH1; reflexivity | exact H2].
Qed.

Lemma deriv_matches (c : ascii) (r : regex) (s : string) :
  matches (deriv c r) s -> matches r (String c s).
Proof.
  revert s.
  induction r as [| | d | | r1 IH1 r2 IH2 | r1 IH1 r2 IH2 | r IH]; simpl; intros s H.
  - inversion H.
  - inversion H.
  - destruct (Ascii.eqb c d) eqn:E; [| inversion H].
    apply Ascii.eqb_eq in E. subst d. inversion H. constructor.
  - destruct (Ascii.eqb c LF) eqn:E; [inversion H |].
    inversion H. constructor. intros ->. rewrite Ascii.eqb_refl in E. discriminate.
  - inversion H; subst; [apply MAltL; apply IH1 | apply MAltR; apply IH2]; assumption.
  - assert (Hcat : forall u, matches (RCat (deriv c r1) r2) u ->
                             matches (RCat r1 r2) (String c u)).
    { intros u Hu. inversion Hu as [| | | | | ? ? s1 s2 Ha Hb | |]; subst.
      apply (MCat r1 r2 (String c s1) s2); [apply IH1; exact Ha | exact Hb]. }
    destruct (nullable r1) eqn:N.
    + inversion H; subst; [apply Hcat; assumption |].
      apply (MCat r1 r2 "" (String c s)); [apply nullable_matches; exact N |].
      apply IH2. assumption.
    + apply Hcat. exact H.
  - inversion H as [| | | | | ? ? s1 s2 Ha Hb | |]; subst.
    apply (MStarApp r (String c s1) s2); [apply IH; exact Ha | exact Hb].
Qed.

(** [prefix_match] holds exactly when the pattern matches a prefix of the
    text: the match starts at the start and need not reach the end. *)
Lemma prefix_match_spec (r : regex) (s : string) :
  prefix_match r s = true <-> exists p q, s = p ++ q /\ matches r p.
Proof.
  revert r. induction s as [| c s IH]; intros r; simpl.
  - rewrite orb_false_r, nullable_matches. split.
    + intros H. exists "", "". split; [reflexivity | exact H].
    + intros (p & q & E & H). symmetry in E. apply append_eq_empty in E.
      destruct E as [-> _]. exact H.
  - rewrite orb_true_iff, nullable_matches, IH. split.
    + intros [H | (p & q & E & H)].
      * exists "", (String c s). split; [reflexivity | exact H].
      * exists (String c p), q. split; [simpl; rewrite E; reflexivity |].
        apply deriv_matches. exact H.
    + intros (p & q & E & H). destruct p as [| d p].
      * left. exact H.
      * right. simpl in E. injection E as <- ->.
        exists p, q. split; [reflexivity |].
        apply (matches_deriv _ _ H). reflexivity.
Qed.

Lemma prefix_append (p t : string) :
  String.prefix p t = true <-> exists q, t = p ++ q.
Proof.
  revert t. induction p as [| c p IH]; intros t.
  - split; [intros _; exists t; reflexivity | intros _; destruct t; reflexivity].
  - destruct t as [| d t]; simpl.
    + split; [discriminate | intros (q & E); discriminate].
    + destruct (ascii_dec c d) as [-> | N].
      * rewrite IH. split; intros (q & E); exists q; congruence.
      * split; [discriminate | intros (q & E); congruence].
Qed.

Lemma matches_literal (s p : string) : matches (literal s) p <-> p = s.
Proof.
  revert p. induction s as [| c s IH]; intros p; simpl.
  - split; [intros H; inversion H; reflexivity | intros ->; constructor].
  - split.
    + intros H. inversion H as [| | | | | ? ? s1 s2 Ha Hb | |]; subst.
      inversion Ha; subst. apply IH in Hb. subst. reflexivity.
    + intros ->. apply (MCat (RChar c) (literal s) (String c "") s);
        [constructor | apply IH; reflexivity].
Qed.

Lemma matches_literals (names : list string) (p : string) :
  names <> [] -> (matches (literals names) p <-> In p names).
Proof.
  induction names as [| n l IH]; intros Hne; [contradiction |].
  destruct l as [| n2 l].
  - simpl. rewrite matches_literal. split; [intros ->; left; reflexivity |].
    intros [-> | []]. reflexivity.
  - change (literals (n :: n2 :: l)) with (RAlt (literal n) (literals (n2 :: l))).
    split.
    + intros H. inversion H; subst.
      * left. symmetry. apply matches_literal. assumption.
      * right. apply IH; [discriminate | assumption].
    + intros [<- | H].
      * apply MAltL. apply matches_literal. reflexivity.
      * apply MAltR. apply IH; [discriminate | exact H].
Qed.

Lemma prefix_match_literals (names : list string) (t : string) :
  names <> [] ->
  prefix_match (literals names) t = existsb (fun n => String.prefix n t) names.
Proof.
  intros Hne. apply eq_true_iff_eq.
  rewrite prefix_match_spec, existsb_exists. split.
  - intros (p & q & E & H). exists p. split; [apply matches_literals; assumption |].
    apply prefix_append. exists q. exact E.
  - intros (n & Hin & H). apply prefix_append in H. destruct H as [q E].
    exists n, q. split; [exact E | apply matches_literals; assumption].
Qed.

Lemma prefix_match_literal (p t : string) :
  prefix_match (literal p) t = String.prefix p t.
Proof.
  change (literal p) with (literals [p]).
  rewrite (prefix_match_literals [p] t) by discriminate.
  simpl. apply orb_false_r.
Qed.

(** ** Patterns: compiling texts without special characters *)

Lemma plain_char_facts (c : ascii) :
  is_special c = false ->
  is_quantifier c = false /\ Ascii.eqb c "." = false /\ Ascii.eqb c "]" = false
  /\ Ascii.eqb c "}" = false /\ Ascii.eqb c backslash = false
  /\ Ascii.eqb c "|" = false /\ Ascii.eqb c "(" = false /\ Ascii.eqb c ")" = false.
Proof.
  unfold is_special. intros H.
  do 11 (apply orb_false_elim in H; destruct H as [H ?]).
  repeat split; assumption.
Qed.

Lemma quantified_none_ahead (a : regex) (s : string) :
  no_quantifier_ahead s -> quantified a s = Some (a, s).
Proof.
  destruct s as [| c s]; simpl; [reflexivity |]. intros ->. reflexivity.
Qed.

Lemma parse_seq_plain_char (fuel : nat) (c : ascii) (s : string) :
  is_special c = false ->
  no_quantifier_ahead s ->
  parse_seq (S fuel) (String c s)
  = match parse_seq fuel s with
    | Some (r, t) => Some (RCat (RChar c) r, t)
    | None => None
    end.
Proof.
  intros Hc Hs.
  destruct (plain_char_facts c Hc) as (_ & H1 & H2 & H3 & H4 & H5 & H6 & H7).
  cbn [parse_seq]. rewrite H5, H7, H6, H1, H4, H2, H3, Hc. cbn [orb].
  rewrite (quantified_none_ahead _ _ Hs). reflexivity.
Qed.

Lemma no_quantifier_ahead_plain (s rest : string) :
  plain s = true -> branch_end rest -> no_quantifier_ahead (s ++ rest).
Proof.
  intros Hs Hr. destruct s as [| c s]; simpl.
  - destruct Hr as [-> | (t & ->)]; simpl; [exact I | reflexivity].
  - simpl in Hs. apply andb_true_iff in Hs. destruct Hs as [Hc _].
    apply negb_true_iff in Hc. apply (plain_char_facts c Hc).
Qed.

Lemma parse_seq_plain (s : string) :
  forall (fuel : nat) (rest : string),
    plain s = true -> branch_end rest -> (String.length s < fuel)%nat ->
    parse_seq fuel (s ++ rest) = Some (literal s, rest).
Proof.
  induction s as [| c s IH]; intros fuel rest Hs Hr Hf.
  - destruct fuel as [| fuel]; [inversion Hf |].
    destruct Hr as [-> | (t & ->)]; reflexivity.
  - destruct fuel as [| fuel]; [inversion Hf |].
    simpl in Hs. apply andb_true_iff in Hs. destruct Hs as [Hc Hs].
    apply negb_true_iff in Hc.
    change (String c s ++ rest) with (String c (s ++ rest)).
    rewrite (parse_seq_plain_char fuel c (s ++ rest) Hc
               (no_quantifier_ahead_plain s rest Hs Hr)).
    rewrite (IH fuel rest Hs Hr) by (simpl in Hf; lia).
    reflexivity.
Qed.

Lemma parse_alt_plain (names : list string) :
  forall fuel : nat,
    names <> [] -> forallb plain names = true ->
    (2 * String.length (join "|" names) + 2 <= fuel)%nat ->
    parse_alt fuel (join "|" names) = Some (literals names, "").
Proof.
  induction names as [| n l IH]; intros fuel Hne Hp Hf; [contradiction |].
  simpl in Hp. apply andb_true_iff in Hp. destruct Hp as [Hn Hl].
  destruct fuel as [| fuel]; [lia |].
  destruct l as [| n2 l].
  - cbn [join] in *. cbn [parse_alt].
    rewrite <- (append_empty_r n) at 1.
    rewrite (parse_seq_plain n fuel "" Hn (or_introl eq_refl)) by lia.
    reflexivity.
  - change (join "|" (n :: n2 :: l)) with (n ++ String "|" (join "|" (n2 :: l))) in *.
    rewrite length_app_string in Hf. cbn [String.length] in Hf.
    cbn [parse_alt].
    rewrite (parse_seq_plain n fuel (String "|" (join "|" (n2 :: l))) Hn)
      by (solve [right; eexists; reflexivity | lia]).
    rewrite (IH fuel) by (solve [discriminate | assumption | lia]).
    reflexivity.
Qed.

(** Names without special characters, joined by bars, compile to the
    alternation of the names. *)
Lemma re_compile_plain_names (names : list string) :
  names <> [] -> forallb plain names = true ->
  re_compile (join "|" names) = inr (literals names).
Proof.
  intros Hne Hp. unfold re_compile.
  rewrite (parse_alt_plain names _ Hne Hp) by lia. reflexivity.
Qed.

Lemma re_compile_plain (p : string) :
  plain p = true -> re_compile p = inr (literal p).
Proof.
  intros Hp. apply (re_compile_plain_names [p]); [discriminate |].
  simpl. rewrite Hp. reflexivity.
Qed.

(** The model on patterns with quantifiers, lazy marks, groups, bars, dots
    and escapes, at inputs where it answers as [re.match] does: the match
    starts at the start of the subject and need not reach its end, and a
    repeat of a repeat or an unclosed group is an error. *)
Lemma re_match_model_examples :
  re_match "ab*c" (JStr "abbbcd") = inr true
  /\ re_match "ab*c" (JStr "ac") = inr true
  /\ re_match "ab+c" (JStr "ac") = inr false
  /\ re_match "ab+c" (JStr "abbc") = inr true
  /\ re_match "ab?c" (JStr "abbc") = inr false
  /\ re_match "ab?c" (JStr "abc") = inr true
  /\ re_match "a*?b" (JStr "aab") = inr true
  /\ re_match "(a|b)+c" (JStr "abac") = inr true
  /\ re_match "(?:ab)+" (JStr "ababx") = inr true
  /\ re_match "a.c" (JStr "abcd") = inr true
  /\ re_match "a.c" (JStr "ab") = inr false
  /\ re_match "a\.c" (JStr "abc") = inr false
  /\ re_match "bc" (JStr "abc") = inr false
  /\ re_match "a|" (JStr "xyz") = inr true
  /\ re_match "a**" (JStr "a") = inl (Exc ReError "bad pattern")
  /\ re_match "(a" (JStr "a") = inl (Exc ReError "bad pattern")
  /\ re_match "a)" (JStr "a") = inl (Exc ReError "unbalanced parenthesis")
  /\ re_match "a" JNull = inl (Exc TypeError "expected string or bytes-like object").
Proof. repeat split; vm_compute; reflexivity. Qed.

(** ** The filters of get_result *)

(** A comprehension whose condition never raises is a filter. *)
Lemma comprehension_filter (cond : string * json -> exception + bool)
    (f : string * json -> bool) (l : list (string * json)) :
  Forall (fun kv => cond kv = inr (f kv)) l ->
  comprehension cond l = inr (filter f l).
Proof.
  induction 1 as [| kv l Hkv _ IH]; simpl; [reflexivity |].
  rewrite Hkv, IH. reflexivity.
Qed.

Lemma task_cond_selected (pattern : string) (rx : regex) (kv : string * json) :
  re_compile pattern = inr rx ->
  task_typed (snd kv) = true ->
  task_cond pattern kv = inr (task_selected rx kv).
Proof.
  intros Hc Ht. unfold task_cond, task_selected, str_field, task_typed in *.
  destruct (snd kv) as [| | | | | | m]; try discriminate. simpl.
  destruct (dict_get m "task") as [v |]; [| reflexivity].
  destruct v; try discriminate. unfold re_match. rewrite Hc. reflexivity.
Qed.

Lemma event_cond_selected (pattern : string) (rx : regex) (kv : string * json) :
  re_compile pattern = inr rx ->
  event_typed (snd kv) = true ->
  event_cond pattern kv = inr (event_selected rx kv).
Proof.
  intros Hc Ht. unfold event_cond, event_selected, event_typed, str_field in *.
  destruct (snd kv) as [| | | | | | m]; try discriminate. simpl.
  destruct (dict_get m "event") as [v |]; [| discriminate].
  destruct v; try discriminate. unfold re_match. rewrite Hc. reflexivity.
Qed.

Lemma filter_by_task_selected (pattern : string) (rx : regex)
    (entries : list (string * json)) :
  pattern <> "" ->
  re_compile pattern = inr rx ->
  Forall (fun kv => task_typed (snd kv) = true) entries ->
  filter_by_task pattern (JObj entries) = inr (JObj (filter (task_selected rx) entries)).
Proof.
  intros Hne Hc Ht. unfold filter_by_task.
  apply String.eqb_neq in Hne. rewrite Hne. cbn [negb items].
  rewrite (comprehension_filter _ (task_selected rx)); [reflexivity |].
  eapply Forall_impl; [| exact Ht].
  intros kv H. apply task_cond_selected; assumption.
Qed.

Lemma filter_by_event_selected (name : string) (names : list string) (rx : regex)
    (l : list (string * json)) :
  re_compile (join "|" (name :: names)) = inr rx ->
  Forall (fun kv => event_typed (snd kv) = true) l ->
  filter_by_event (name :: names) (JObj l) = inr (JObj (filter (event_selected rx) l)).
Proof.
  intros Hc Ht. unfold filter_by_event. cbn [items].
  rewrite (comprehension_filter _ (event_selected rx)); [reflexivity |].
  eapply Forall_impl; [| exact Ht].
  intros kv H. apply event_cond_selected; assumption.
Qed.

(** *** The filters over any regex engine *)

Lemma get_result_with_model (ef : list string) (s : HandleState) :
  get_result_with re_match ef s = get_result ef s.
Proof. reflexivity. Qed.

Lemma get_result_with_run (re_match_fn : regex_engine) (ef : list string)
    (h : PlayBookExecution) (w : World) :
  py_truthy (play_uuid h) = true ->
  exists lg,
    get_result_with re_match_fn ef (h, w)
    = (result_outcome_with re_match_fn h ef
         (remote w (sent w) (get_request (rest_client h) (events_endpoint h))),
       (h, after_call w (get_request (rest_client h) (events_endpoint h)) lg)).
Proof.
  intros H.
  unfold get_result_with, bind, get_self. cbn [fst snd].
  rewrite H. cbn [negb]. fold (events_endpoint h).
  destruct (remote w (sent w) (get_request (rest_client h) (events_endpoint h)))
    as [f msg | r] eqn:E.
  - destruct (io_level f) eqn:Hio.
    + destruct (try_http_get_io_failure h h _ "Error getting playbook <%s> result" _ _ _ E Hio)
        as [lg ->].
      unfold result_outcome_with. rewrite Hio.
      unfold ret, lift_world, log_write, after_call.
      cbn [fst snd remote sent log]. rewrite <- app_assoc. eexists. reflexivity.
    + rewrite (try_http_get_other_failure h h _ _ _ _ _ E Hio).
      unfold result_outcome_with. rewrite Hio. eexists. reflexivity.
  - destruct (try_http_get_responds h h _ "Error getting playbook <%s> result" _ _ E)
      as [lg ->].
    unfold result_outcome_with, ret, lift_world, lift_result, log_write, after_call.
    destruct (ok r); [destruct (filter_events_with re_match_fn h ef r) as [e | v] |];
      cbn [fst snd remote sent log]; try rewrite <- app_assoc; eexists; reflexivity.
Qed.

(** The result of [get_result_with] on a response that is no HTTP error. *)
Lemma get_result_with_ok_run (re_match_fn : regex_engine) (h : PlayBookExecution)
    (ef : list string) (w : World) (r : Response) (events : json) :
  py_truthy (play_uuid h) = true ->
  remote w (sent w) (get_request (rest_client h) (events_endpoint h)) = Responds r ->
  ok r = true ->
  events_of r = inr events ->
  fst (get_result_with re_match_fn ef (h, w))
  = match filter_by_task_with re_match_fn (result_task_pattern h) events with
    | inl e => inl e
    | inr result_events => filter_by_event_with re_match_fn ef result_events
    end.
Proof.
  intros Hid E Hok He.
  destruct (get_result_with_run re_match_fn ef h w Hid) as [lg ->]. cbn [fst].
  rewrite E. unfold result_outcome_with. rewrite Hok.
  unfold filter_events_with. unfold events_of in He.
  destruct (json_loads (text r)) as [e | body]; [discriminate |].
  destruct (getitem body "data") as [e | data]; [discriminate |].
  rewrite He. reflexivity.
Qed.

(** A comprehension is the filter by the truth values of its condition on
    the entries of the list. *)
Lemma comprehension_filter_in (cond : string * json -> exception + bool)
    (f : string * json -> bool) (l : list (string * json)) :
  (forall kv, In kv l -> cond kv = inr (f kv)) ->
  comprehension cond l = inr (filter f l).
Proof.
  intros H. apply comprehension_filter. apply Forall_forall. exact H.
Qed.

Lemma task_cond_with_matched (re_match_fn : regex_engine) (pattern : string)
    (m : string -> bool) (kv : string * json) :
  task_typed (snd kv) = true ->
  (forall t, str_field "task" (snd kv) = Some t ->
             re_match_fn pattern (JStr t) = inr (m t)) ->
  task_cond_with re_match_fn pattern kv = inr (task_matched m kv).
Proof.
  intros Ht Hm. unfold task_cond_with, task_matched, str_field, task_typed in *.
  destruct (snd kv) as [| | | | | | d]; try discriminate. simpl.
  destruct (dict_get d "task") as [v |]; [| reflexivity].
  destruct v; try discriminate. apply Hm. reflexivity.
Qed.

Lemma event_cond_with_matched (re_match_fn : regex_engine) (pattern : string)
    (m : string -> bool) (kv : string * json) :
  event_typed (snd kv) = true ->
  (forall ev, str_field "event" (snd kv) = Some ev ->
              re_match_fn pattern (JStr ev) = inr (m ev)) ->
  event_cond_with re_match_fn pattern kv = inr (event_matched m kv).
Proof.
  intros Ht Hm. unfold event_cond_with, event_matched, event_typed, str_field in *.
  destruct (snd kv) as [| | | | | | d]; try discriminate. simpl.
  destruct (dict_get d "event") as [v |]; [| discriminate].
  destruct v; try discriminate. apply Hm. reflexivity.
Qed.

Lemma filter_by_task_with_matched (re_match_fn : regex_engine) (pattern : string)
    (m : string -> bool) (entries : list (string * json)) :
  pattern <> "" ->
  Forall (fun kv => task_typed (snd kv) = true) entries ->
  (forall kv t, In kv entries -> str_field "task" (snd kv) = Some t ->
                re_match_fn pattern (JStr t) = inr (m t)) ->
  filter_by_task_with re_match_fn pattern (JObj entries)
  = inr (JObj (filter (task_matched m) entries)).
Proof.
  intros Hne Ht Hm. unfold filter_by_task_with.
  apply String.eqb_neq in Hne. rewrite Hne. cbn [negb items].
  rewrite (comprehension_filter_in _ (task_matched m)); [reflexivity |].
  intros kv Hin. rewrite Forall_forall in Ht.
  apply task_cond_with_matched; [apply Ht; exact Hin |].
  intros t Hf. apply (Hm kv t Hin Hf).
Qed.

Lemma filter_by_event_with_matched (re_match_fn : regex_engine) (name : string)
    (names : list string) (m : string -> bool) (l : list (string * json)) :
  Forall (fun kv => event_typed (snd kv) = true) l ->
  (forall kv ev, In kv l -> str_field "event" (snd kv) = Some ev ->
                 re_match_fn (join "|" (name :: names)) (JStr ev) = inr (m ev)) ->
  filter_by_event_with re_match_fn (name :: names) (JObj l)
  = inr (JObj (filter (event_matched m) l)).
Proof.
  intros Ht Hm. unfold filter_by_event_with. cbn [items].
  rewrite (comprehension_filter_in _ (event_matched m)); [reflexivity |].
  intros kv Hin. rewrite Forall_forall in Ht.
  apply event_cond_with_matched; [apply Ht; exact Hin |].
  intros ev Hf. apply (Hm kv ev Hin Hf).
Qed.

(** The model [re_match] matches names without special characters at the
    start of the subject. *)
Lemma re_match_plain_names : matches_plain_names_at_start re_match.
Proof.
  intros names t Hne Hp. unfold re_match.
  rewrite (re_compile_plain_names names Hne Hp).
  rewrite (prefix_match_literals names t Hne). reflexivity.
Qed.

(** C6: with a non-empty task pattern, [get_result] keeps exactly the
    events that have a [task] that [re.match] matches against the
    pattern, that is at the start of the [task]; an event without a
    [task], or whose [task] the pattern does not match so, is dropped.
    This holds for every regex engine in the place of [re.match] and every
    pattern for which it gives a truth value on the tasks at hand; what is
    kept goes on to the event filter.  For a pattern without special
    characters, and an engine that matches such texts at the start of the
    subject, the events kept are those whose [task] starts with the
    pattern.  The event details are dicts whose [task], if any, is a
    str. *)
Theorem get_result_keeps_matching_tasks (re_match_fn : regex_engine)
    (h : PlayBookExecution) (w : World) (r : Response)
    (entries : list (string * json)) :
  py_truthy (play_uuid h) = true ->
  result_task_pattern h <> "" ->
  remote w (sent w) (get_request (rest_client h) (events_endpoint h)) = Responds r ->
  ok r = true ->
  events_of r = inr (JObj entries) ->
  Forall (fun kv => task_typed (snd kv) = true) entries ->
  (forall m : string -> bool,
     (forall kv t, In kv entries -> str_field "task" (snd kv) = Some t ->
                   re_match_fn (result_task_pattern h) (JStr t) = inr (m t)) ->
     fst (get_result_with re_match_fn [] (h, w))
     = inr (JObj (filter (task_matched m) entries))
     /\ (forall ef, fst (get_result_with re_match_fn ef (h, w))
                    = filter_by_event_with re_match_fn ef
                        (JObj (filter (task_matched m) entries))))
  /\ (matches_plain_names_at_start re_match_fn ->
      plain (result_task_pattern h) = true ->
      fst (get_result_with re_match_fn [] (h, w))
      = inr (JObj (filter (task_starts_with (result_task_pattern h)) entries))).
Proof.
  intros Hid Hpat E Hok He Ht.
  assert (Hrun : forall m ef,
            (forall kv t, In kv entries -> str_field "task" (snd kv) = Some t ->
                          re_match_fn (result_task_pattern h) (JStr t) = inr (m t)) ->
            fst (get_result_with re_match_fn ef (h, w))
            = filter_by_event_with re_match_fn ef
                (JObj (filter (task_matched m) entries))).
  { intros m ef Hm.
    rewrite (get_result_with_ok_run re_match_fn h ef w r _ Hid E Hok He).
    rewrite (filter_by_task_with_matched re_match_fn _ m entries Hpat Ht Hm).
    reflexivity. }
  split.
  - intros m Hm. split; [apply (Hrun m [] Hm) |].
    intros ef. apply (Hrun m ef Hm).
  - intros Hlaw Hp.
    rewrite (Hrun (String.prefix (result_task_pattern h)) []).
    + reflexivity.
    + intros kv t _ _.
      change (result_task_pattern h) with (join "|" [result_task_pattern h]) at 1.
      rewrite (Hlaw [result_task_pattern h] t) by
        (solve [discriminate | simpl; rewrite Hp; reflexivity]).
      simpl. rewrite orb_false_r. reflexivity.
Qed.

Lemma get_result_keeps_matching_tasks_witness :
  fst (get_result_with re_match [] (handle_with "abc" "Gathering",
                                    answering (Responds events_response)))
  = inr (JObj
      [("1-a", JObj [("event", JStr "runner_on_ok"); ("task", JStr "Gathering Facts")]);
       ("3-c", JObj [("event", JStr "runner_on_failed");
                     ("task", JStr "Gathering Facts")])])
  /\ fst (get_result_with re_match [] (handle_with "abc" "(Inst|Upd)a.l",
                                       answering (Responds events_response)))
     = inr (JObj
         [("4-d", JObj [("event", JStr "runner_on_ok"); ("task", JStr "Install")])]).
Proof.
  split.
  - apply (proj2 (get_result_keeps_matching_tasks re_match (handle_with "abc" "Gathering")
             (answering (Responds events_response)) events_response sample_events
             eq_refl ltac:(discriminate) eq_refl eq_refl ltac:(vm_compute; reflexivity)
             ltac:(repeat constructor)) re_match_plain_names).
    reflexivity.
  - apply (proj1 (get_result_keeps_matching_tasks re_match
             (handle_with "abc" "(Inst|Upd)a.l")
             (answering (Responds events_response)) events_response sample_events
             eq_refl ltac:(discriminate) eq_refl eq_refl ltac:(vm_compute; reflexivity)
             ltac:(repeat constructor)) (String.prefix "Install")).
    intros kv t [<- | [<- | [<- | [<- | []]]]] H; vm_compute in H;
      try discriminate; injection H as <-; vm_compute; reflexivity.
Defined.

(** C5: with a non-empty list of event names, [get_result] returns exactly
    the entries of the task-filtered events whose [event] [re.match]
    matches against the names joined by bars into one pattern, that is at
    the start of the [event].  This holds for every regex engine in the
    place of [re.match] and all names for which it gives a truth value on
    the events at hand.  For names without special characters, and an
    engine that matches such texts at the start of the subject, these are
    the entries whose [event] starts with one of the names.  The event
    details are dicts whose [event] is a str. *)
Theorem get_result_keeps_matching_events (re_match_fn : regex_engine)
    (h : PlayBookExecution) (w : World) (r : Response) (events : json)
    (l : list (string * json)) (name : string) (names : list string) :
  py_truthy (play_uuid h) = true ->
  remote w (sent w) (get_request (rest_client h) (events_endpoint h)) = Responds r ->
  ok r = true ->
  events_of r = inr events ->
  filter_by_task_with re_match_fn (result_task_pattern h) events = inr (JObj l) ->
  Forall (fun kv => event_typed (snd kv) = true) l ->
  (forall m : string -> bool,
     (forall kv ev, In kv l -> str_field "event" (snd kv) = Some ev ->
                    re_match_fn (join "|" (name :: names)) (JStr ev) = inr (m ev)) ->
     fst (get_result_with re_match_fn (name :: names) (h, w))
     = inr (JObj (filter (event_matched m) l)))
  /\ (matches_plain_names_at_start re_match_fn ->
      forallb plain (name :: names) = true ->
      fst (get_result_with re_match_fn (name :: names) (h, w))
      = inr (JObj (filter (event_starts_with (name :: names)) l))).
Proof.
  intros Hid E Hok He Hl Ht.
  assert (Hrun : forall m,
            (forall kv ev, In kv l -> str_field "event" (snd kv) = Some ev ->
                           re_match_fn (join "|" (name :: names)) (JStr ev)
                           = inr (m ev)) ->
            fst (get_result_with re_match_fn (name :: names) (h, w))
            = inr (JObj (filter (event_matched m) l))).
  { intros m Hm.
    rewrite (get_result_with_ok_run re_match_fn h _ w r _ Hid E Hok He), Hl.
    apply (filter_by_event_with_matched re_match_fn name names m l Ht Hm). }
  split; [exact Hrun |].
  intros Hlaw Hp.
  rewrite (Hrun (fun ev => existsb (fun n => String.prefix n ev) (name :: names))).
  - reflexivity.
  - intros kv ev _ _. apply Hlaw; [discriminate | exact Hp].
Qed.

Lemma get_result_keeps_matching_events_witness :
  fst (get_result_with re_match ["runner_on_failed"; "playbook_on"]
         (handle_with "abc" "", answering (Responds events_response)))
  = inr (JObj
      [("2-b", JObj [("event", JStr "playbook_on_stats")]);
       ("3-c", JObj [("event", JStr "runner_on_failed");
                     ("task", JStr "Gathering Facts")])])
  /\ fst (get_result_with re_match ["runner_.n_(ok|skipped)"; "play.ook"]
            (handle_with "abc" "", answering (Responds events_response)))
     = inr (JObj
         [("1-a", JObj [("event", JStr "runner_on_ok"); ("task", JStr "Gathering Facts")]);
          ("2-b", JObj [("event", JStr "playbook_on_stats")]);
          ("4-d", JObj [("event", JStr "runner_on_ok"); ("task", JStr "Install")])]).
Proof.
  split.
  - apply (proj2 (get_result_keeps_matching_events re_match (handle_with "abc" "")
             (answering (Responds events_response)) events_response (JObj sample_events)
             sample_events "runner_on_failed" ["playbook_on"]
             eq_refl eq_refl eq_refl ltac:(vm_compute; reflexivity) eq_refl
             ltac:(repeat constructor)) re_match_plain_names).
    reflexivity.
  - apply (proj1 (get_result_keeps_matching_events re_match (handle_with "abc" "")
             (answering (Responds events_response)) events_response (JObj sample_events)
             sample_events "runner_.n_(ok|skipped)" ["play.ook"]
             eq_refl eq_refl eq_refl ltac:(vm_compute; reflexivity) eq_refl
             ltac:(repeat constructor))
             (fun ev => negb (String.prefix "runner_on_failed" ev))).
    intros kv ev [<- | [<- | [<- | [<- | []]]]] H; vm_compute in H;
      try discriminate; injection H as <-; vm_compute; reflexivity.
Defined.

(** ** Exceptions that reach the caller *)

Lemma get_status_without_call (h : PlayBookExecution) (w : World) :
  play_uuid h = JStr "-" \/ play_uuid h = JStr "" ->
  exists s, fst (get_status (h, w)) = inr s.
Proof.
  intros [H | H]; unfold get_status, bind, get_self; cbn [fst snd]; rewrite H;
    eexists; reflexivity.
Qed.

Lemma raised_class_io (w : World) (hist : list Request) (rq : Request)
    (f : stack_failure) (msg : string) :
  io_failures_only w -> remote w hist rq = Raises f msg ->
  raised_class f = AnsibleRunnerServiceError /\ io_level f = true.
Proof.
  intros Hio E. destruct f; try (split; reflexivity).
  exfalso. apply (Hio hist rq msg). exact E.
Qed.

(** C3, as stated, fails: [http_put] raises [NotImplementedError], which
    is not the transport error. *)
Lemma http_put_raises_not_implemented :
  fst (http_put demo_client "api/v1/playbooks" JNull
         (answering (Responds (mkResponse 200 "OK" ""))))
  = inl (Exc NotImplementedError "TODO")
  /\ NotImplementedError <> AnsibleRunnerServiceError.
Proof. split; [reflexivity | discriminate]. Qed.

(** C3 (as amended): when the HTTP stack fails with nothing but
    [RequestException] and [IOError], the transport error is the only
    exception that leaves [is_operative], [http_get], [http_post] and
    [http_delete]; [http_put] always raises [NotImplementedError]; and an
    exception that leaves [launch], [get_status] or [get_result] is the
    transport error (from [launch] only) or was raised while the body of a
    response that is no HTTP error was decoded or filtered. *)
Theorem only_transport_error_propagates (c : Client) (ep : string)
    (payload params_dict : json) (h : PlayBookExecution) (ef : list string)
    (w : World) (e : exception) :
  io_failures_only w ->
  (fst (is_operative c w) = inl e \/ fst (http_get c ep w) = inl e
   \/ fst (http_post c ep payload params_dict w) = inl e
   \/ fst (http_delete c ep w) = inl e ->
   exc_type e = AnsibleRunnerServiceError)
  /\ fst (http_put c ep payload w) = inl (Exc NotImplementedError "TODO")
  /\ (fst (launch (h, w)) = inl e ->
      exc_type e = AnsibleRunnerServiceError
      \/ exists r, remote w (sent w) (launch_request h) = Responds r
                   /\ ok r = true /\ play_uuid_of r = inl e)
  /\ (fst (get_status (h, w)) = inl e ->
      exists r, remote w (sent w) (get_request (rest_client h) (status_endpoint h))
                = Responds r
                /\ ok r = true /\ msg_of r = inl e)
  /\ (fst (get_result ef (h, w)) = inl e ->
      exists r, remote w (sent w) (get_request (rest_client h) (events_endpoint h))
                = Responds r
                /\ ok r = true /\ filter_events h ef r = inl e).
Proof.
  intros Hio. split; [| split; [| split; [| split]]].
  - intros [H | [H | [H | H]]].
    + rewrite is_operative_run in H.
      destruct (remote w (sent w) (get_request c API_URL)) as [f msg | r] eqn:E;
        [| discriminate].
      injection H as <-. apply (raised_class_io _ _ _ _ _ Hio E).
    + destruct (remote w (sent w) (get_request c ep)) as [f msg | r] eqn:E.
      * rewrite (http_get_raises _ _ _ _ _ E) in H. injection H as <-.
        apply (raised_class_io _ _ _ _ _ Hio E).
      * destruct (http_get_responds _ _ _ _ E) as [rec Hr]. rewrite Hr in H.
        discriminate.
    + destruct (remote w (sent w) (post_request c ep payload params_dict))
        as [f msg | r] eqn:E.
      * rewrite (http_post_raises _ _ _ _ _ _ _ E) in H. injection H as <-.
        apply (raised_class_io _ _ _ _ _ Hio E).
      * destruct (http_post_responds _ _ _ _ _ _ E) as [rec Hr]. rewrite Hr in H.
        discriminate.
    + destruct (remote w (sent w) (delete_request c ep)) as [f msg | r] eqn:E.
      * rewrite (http_delete_raises _ _ _ _ _ E) in H. injection H as <-.
        apply (raised_class_io _ _ _ _ _ Hio E).
      * destruct (http_delete_responds _ _ _ _ E) as [rec Hr]. rewrite Hr in H.
        discriminate.
  - reflexivity.
  - intros H. destruct (launch_run h w) as [lg Hr]. rewrite Hr in H. cbn [fst] in H.
    unfold launch_outcome in H.
    destruct (remote w (sent w) (launch_request h)) as [f msg | r] eqn:E.
    + left. cbn [fst] in H. injection H as <-.
      apply (raised_class_io _ _ _ _ _ Hio E).
    + destruct (ok r) eqn:Hok.
      * right. exists r. split; [reflexivity | split; [exact Hok |]].
        destruct (play_uuid_of r) as [e' | u]; [| discriminate].
        cbn [fst] in H. congruence.
      * left. cbn [fst] in H. injection H as <-. reflexivity.
  - intros H.
    destruct (py_eq_str (play_uuid h) "-") eqn:E1.
    { apply py_eq_str_true in E1.
      destruct (get_status_without_call h w (or_introl E1)) as [s Hs]. congruence. }
    destruct (py_eq_str (play_uuid h) "") eqn:E2.
    { apply py_eq_str_true in E2.
      destruct (get_status_without_call h w (or_intror E2)) as [s Hs]. congruence. }
    apply py_eq_str_false in E1, E2.
    destruct (get_status_run h w E1 E2) as [lg Hr]. rewrite Hr in H. cbn [fst] in H.
    unfold status_outcome in H.
    destruct (remote w (sent w) (get_request (rest_client h) (status_endpoint h)))
      as [f msg | r] eqn:E.
    + destruct (raised_class_io _ _ _ _ _ Hio E) as [_ Hf]. rewrite Hf in H.
      discriminate.
    + exists r. destruct (ok r); [| discriminate].
      split; [reflexivity | split; [reflexivity |]].
      destruct (msg_of r) as [e' | m]; [congruence | discriminate].
  - intros H.
    destruct (py_truthy (play_uuid h)) eqn:Hid.
    + destruct (get_result_run ef h w Hid) as [lg Hr]. rewrite Hr in H.
      cbn [fst] in H. unfold result_outcome in H.
      destruct (remote w (sent w) (get_request (rest_client h) (events_endpoint h)))
        as [f msg | r] eqn:E.
      * destruct (raised_class_io _ _ _ _ _ Hio E) as [_ Hf]. rewrite Hf in H.
        discriminate.
      * exists r. destruct (ok r); [| discriminate].
        split; [reflexivity | split; [reflexivity | exact H]].
    + rewrite (get_result_no_identifier ef h w Hid) in H. discriminate.
Qed.

Lemma only_transport_error_propagates_witness :
  io_failures_only (answering (Raises StackIOError "connection refused"))
  /\ fst (http_get demo_client "api" (answering (Raises StackIOError "connection refused")))
     = inl (Exc AnsibleRunnerServiceError "connection refused")
  /\ exc_type (Exc AnsibleRunnerServiceError "connection refused")
     = AnsibleRunnerServiceError.
Proof.
  assert (Hio : io_failures_only (answering (Raises StackIOError "connection refused"))).
  { intros hist rq msg. simpl. discriminate. }
  split; [exact Hio |]. split; [reflexivity |].
  apply (proj1 (only_transport_error_propagates demo_client "api" JNull JNull
                  fresh_handle [] (answering (Raises StackIOError "connection refused"))
                  (Exc AnsibleRunnerServiceError "connection refused") Hio)).
  right. left. reflexivity.
Defined.

(** ** Further properties: the transport client *)

(** X1: a decorated method never lets a [RequestException] or an [IOError]
    out: such an exception leaves as the transport error with the same
    message, a returned value and any other exception pass as they are,
    the state is the one the method left, and decorating twice is
    decorating once. *)
Theorem handle_requests_exceptions_contains {S A : Type} (func : M S A) (s : S) :
  snd (handle_requests_exceptions func s) = snd (func s)
  /\ (forall a, fst (func s) = inr a ->
                fst (handle_requests_exceptions func s) = inr a)
  /\ (forall e, fst (func s) = inl e ->
                is_requests_exception (exc_type e) = true ->
                fst (handle_requests_exceptions func s)
                = inl (Exc AnsibleRunnerServiceError (exc_str e)))
  /\ (forall e, fst (func s) = inl e ->
                is_requests_exception (exc_type e) = false ->
                fst (handle_requests_exceptions func s) = inl e)
  /\ (forall e, fst (handle_requests_exceptions func s) = inl e ->
                is_requests_exception (exc_type e) = false)
  /\ handle_requests_exceptions (handle_requests_exceptions func) s
     = handle_requests_exceptions func s.
Proof.
  unfold handle_requests_exceptions, try_except, raise.
  destruct (func s) as [[e | a] s'] eqn:E; cbn [fst snd].
  - destruct (is_requests_exception (exc_type e)) eqn:C; cbn [fst snd].
    + repeat split; try discriminate.
      * intros e' He' _. injection He' as <-. reflexivity.
      * intros e' He' C'. injection He' as <-. congruence.
      * intros e' He'. injection He' as <-. reflexivity.
    + rewrite C. repeat split; try discriminate.
      * intros e' He' C'. injection He' as <-. congruence.
      * intros e' He' _. exact He'.
      * intros e' He'. injection He' as <-. exact C.
  - repeat split; try discriminate.
    intros a' Ha'. exact Ha'.
Qed.

Lemma handle_requests_exceptions_contains_witness :
  fst (handle_requests_exceptions
         (requests_call (get_request demo_client "api"))
         (answering (Raises StackRequestException "connection refused")))
  = inl (Exc AnsibleRunnerServiceError "connection refused")
  /\ fst (handle_requests_exceptions
            (requests_call (get_request demo_client "api"))
            (answering (Raises StackOther "interrupted")))
     = inl (Exc OtherException "interrupted")
  /\ fst (handle_requests_exceptions
            (requests_call (get_request demo_client "api"))
            (answering (Responds (mkResponse 200 "OK" ""))))
     = inr (mkResponse 200 "OK" "").
Proof.
  split; [| split].
  - apply (proj1 (proj2 (proj2 (handle_requests_exceptions_contains
             (requests_call (get_request demo_client "api"))
             (answering (Raises StackRequestException "connection refused")))))
             (Exc RequestException "connection refused")); reflexivity.
  - apply (proj1 (proj2 (proj2 (proj2 (handle_requests_exceptions_contains
             (requests_call (get_request demo_client "api"))
             (answering (Raises StackOther "interrupted"))))))
             (Exc OtherException "interrupted")); reflexivity.
  - apply (proj1 (proj2 (handle_requests_exceptions_contains
             (requests_call (get_request demo_client "api"))
             (answering (Responds (mkResponse 200 "OK" "")))))
             (mkResponse 200 "OK" "")); reflexivity.
Defined.

(** The whole run of a transport method that gets a response: one call,
    one log record at the level of the status. *)
Lemma http_get_responds_log (c : Client) (ep : string) (w : World) (r : Response) :
  remote w (sent w) (get_request c ep) = Responds r ->
  exists rec, log_level_of rec = response_log_level r
              /\ http_get c ep w = (inr r, after_call w (get_request c ep) [rec]).
Proof.
  intros H. run_transport. rewrite H. unfold response_log_level.
  destruct (status_code r =? codes_ok); simpl; eexists; (split; [| reflexivity]); reflexivity.
Qed.

Lemma http_post_responds_log (c : Client) (ep : string) (p q : json) (w : World)
    (r : Response) :
  remote w (sent w) (post_request c ep p q) = Responds r ->
  exists rec, log_level_of rec = response_log_level r
              /\ http_post c ep p q w
                 = (inr r, after_call w (post_request c ep p q) [rec]).
Proof.
  intros H. run_transport. rewrite H. unfold response_log_level.
  destruct (status_code r =? codes_ok); simpl; eexists; (split; [| reflexivity]); reflexivity.
Qed.

Lemma http_delete_responds_log (c : Client) (ep : string) (w : World) (r : Response) :
  remote w (sent w) (delete_request c ep) = Responds r ->
  exists rec, log_level_of rec = response_log_level r
              /\ http_delete c ep w = (inr r, after_call w (delete_request c ep) [rec]).
Proof.
  intros H. run_transport. rewrite H. unfold response_log_level.
  destruct (status_code r =? codes_ok); simpl; eexists; (split; [| reflexivity]); reflexivity.
Qed.

(** X2: [http_get], [http_post] and [http_delete] write exactly one log
    record for a response, at info level when its status is the success
    code and at error level otherwise, and write nothing when the HTTP
    stack raises. *)
Theorem transport_logs_one_record_per_response (c : Client) (ep : string)
    (payload params_dict : json) (w : World) :
  (forall r,
     (remote w (sent w) (get_request c ep) = Responds r ->
      exists rec, log (snd (http_get c ep w)) = (log w ++ [rec])%list
                  /\ log_level_of rec = response_log_level r)
     /\ (remote w (sent w) (post_request c ep payload params_dict) = Responds r ->
         exists rec, log (snd (http_post c ep payload params_dict w))
                     = (log w ++ [rec])%list
                     /\ log_level_of rec = response_log_level r)
     /\ (remote w (sent w) (delete_request c ep) = Responds r ->
         exists rec, log (snd (http_delete c ep w)) = (log w ++ [rec])%list
                     /\ log_level_of rec = response_log_level r))
  /\ (forall f msg,
     (remote w (sent w) (get_request c ep) = Raises f msg ->
      log (snd (http_get c ep w)) = log w)
     /\ (remote w (sent w) (post_request c ep payload params_dict) = Raises f msg ->
         log (snd (http_post c ep payload params_dict w)) = log w)
     /\ (remote w (sent w) (delete_request c ep) = Raises f msg ->
         log (snd (http_delete c ep w)) = log w)).
Proof.
  split.
  - intros r. split; [| split]; intros H.
    + destruct (http_get_responds_log _ _ _ _ H) as (rec & Hl & ->).
      exists rec. split; [reflexivity | exact Hl].
    + destruct (http_post_responds_log _ _ _ _ _ _ H) as (rec & Hl & ->).
      exists rec. split; [reflexivity | exact Hl].
    + destruct (http_delete_responds_log _ _ _ _ H) as (rec & Hl & ->).
      exists rec. split; [reflexivity | exact Hl].
  - intros f msg. split; [| split]; intros H.
    + rewrite (http_get_raises _ _ _ _ _ H). cbn. apply app_nil_r.
    + rewrite (http_post_raises _ _ _ _ _ _ _ H). cbn. apply app_nil_r.
    + rewrite (http_delete_raises _ _ _ _ _ H). cbn. apply app_nil_r.
Qed.

Lemma transport_logs_one_record_per_response_witness :
  (exists rec,
     log (snd (http_get demo_client "api"
                 (answering (Responds (mkResponse 404 "NOT FOUND" "")))))
     = [rec]
     /\ log_level_of rec = ERROR_LEVEL)
  /\ log (snd (http_delete demo_client "api" (answering (Raises StackIOError "reset"))))
     = [].
Proof.
  split.
  - apply (proj1 (proj1 (transport_logs_one_record_per_response demo_client "api"
             JNull JNull (answering (Responds (mkResponse 404 "NOT FOUND" ""))))
             (mkResponse 404 "NOT FOUND" ""))).
    reflexivity.
  - apply (proj2 (proj2 (proj2 (transport_logs_one_record_per_response demo_client
             "api" JNull JNull (answering (Raises StackIOError "reset")))
             StackIOError "reset"))).
    reflexivity.
Defined.

Lemma is_operative_world (c : Client) (w : World) :
  snd (is_operative c w) = snd (http_get c API_URL w).
Proof.
  unfold is_operative, handle_requests_exceptions, try_except, bind.
  destruct (http_get c API_URL w) as [[e | r] w'] eqn:E; cbn [snd].
  - destruct (is_requests_exception (exc_type e)); reflexivity.
  - destruct (ok r); reflexivity.
Qed.

Lemma http_get_sent (c : Client) (ep : string) (w : World) :
  sent (snd (http_get c ep w)) = (sent w ++ [get_request c ep])%list
  /\ remote (snd (http_get c ep w)) = remote w.
Proof.
  destruct (remote w (sent w) (get_request c ep)) as [f msg | r] eqn:E.
  - rewrite (http_get_raises _ _ _ _ _ E). split; reflexivity.
  - destruct (http_get_responds _ _ _ _ E) as [rec ->]. split; reflexivity.
Qed.

Lemma append_assoc_string (a b c : string) : (a ++ b) ++ c = a ++ (b ++ c).
Proof. induction a as [| x a IH]; simpl; [reflexivity | rewrite IH; reflexivity]. Qed.

Lemma transport_sent (c : Client) (ep : string) (payload params_dict : json)
    (w : World) :
  sent (snd (http_get c ep w)) = (sent w ++ [get_request c ep])%list
  /\ sent (snd (http_post c ep payload params_dict w))
     = (sent w ++ [post_request c ep payload params_dict])%list
  /\ sent (snd (http_delete c ep w)) = (sent w ++ [delete_request c ep])%list.
Proof.
  split; [| split].
  - apply http_get_sent.
  - destruct (remote w (sent w) (post_request c ep payload params_dict))
      as [f msg | r] eqn:E.
    + rewrite (http_post_raises _ _ _ _ _ _ _ E). reflexivity.
    + destruct (http_post_responds _ _ _ _ _ _ E) as [rec ->]. reflexivity.
  - destruct (remote w (sent w) (delete_request c ep)) as [f msg | r] eqn:E.
    + rewrite (http_delete_raises _ _ _ _ _ E). reflexivity.
    + destruct (http_delete_responds _ _ _ _ E) as [rec ->]. reflexivity.
Qed.

(** X3: there is no retry: [is_operative], [http_get], [http_post],
    [http_delete] and [launch] make exactly one call to the HTTP stack each,
    whatever its outcome, with the method, URL, headers and body of the
    operation; [http_put] makes none. *)
Theorem one_call_per_operation (c : Client) (ep : string) (payload params_dict : json)
    (h : PlayBookExecution) (w : World) :
  sent (snd (is_operative c w)) = (sent w ++ [get_request c API_URL])%list
  /\ sent (snd (http_get c ep w)) = (sent w ++ [get_request c ep])%list
  /\ sent (snd (http_post c ep payload params_dict w))
     = (sent w ++ [post_request c ep payload params_dict])%list
  /\ sent (snd (http_delete c ep w)) = (sent w ++ [delete_request c ep])%list
  /\ sent (snd (http_put c ep payload w)) = sent w
  /\ sent (snd (snd (launch (h, w))))
     = (sent w ++ [post_request (rest_client h) (PLAYBOOK_EXEC_URL ++ "/" ++ playbook h)
                     (params h) (querystr_dict h)])%list.
Proof.
  destruct (transport_sent c ep payload params_dict w) as (H1 & H2 & H3).
  split; [| split; [| split; [| split; [| split]]]].
  - rewrite is_operative_world. apply http_get_sent.
  - exact H1.
  - exact H2.
  - exact H3.
  - reflexivity.
  - destruct (launch_run h w) as [lg ->]. reflexivity.
Qed.

(** X4: whatever [verify_server] says, a client built with a non-empty CA
    bundle hands that bundle to the HTTP stack as [verify] in the request
    of every transport method; without a bundle (None or the empty string)
    it hands over the boolean.  The request goes to an [https://] URL under
    the server given and carries the certificate and key as a pair. *)
Theorem client_requests_carry_bundle (url : string) (verify : bool)
    (ca_bundle : option string) (cert key ep : string) (payload params_dict : json)
    (w : World) (rq : Request) :
  let c := Client_init url verify ca_bundle cert key in
  sent (snd (http_get c ep w)) = (sent w ++ [rq])%list
  \/ sent (snd (http_post c ep payload params_dict w)) = (sent w ++ [rq])%list
  \/ sent (snd (http_delete c ep w)) = (sent w ++ [rq])%list ->
  (forall p, ca_bundle = Some p -> p <> "" -> req_verify rq = VerifyBundle p)
  /\ (ca_bundle = None \/ ca_bundle = Some "" -> req_verify rq = VerifyBool verify)
  /\ req_cert rq = (cert, key)
  /\ req_url rq = "https://" ++ url ++ "/" ++ ep.
Proof.
  intros c Hrq.
  destruct (transport_sent c ep payload params_dict w) as (H1 & H2 & H3).
  assert (Hcase : rq = get_request c ep \/ rq = post_request c ep payload params_dict
                  \/ rq = delete_request c ep).
  { destruct Hrq as [H | [H | H]];
      [rewrite H1 in H | rewrite H2 in H | rewrite H3 in H];
      apply app_inv_head in H; injection H as <-; auto. }
  assert (Hurl : server_url c ++ "/" ++ ep = "https://" ++ url ++ "/" ++ ep).
  { unfold c, Client_init. cbn [server_url]. apply append_assoc_string. }
  assert (Hv1 : forall p, ca_bundle = Some p -> p <> "" ->
                          verify_server c = VerifyBundle p).
  { intros p -> Hp. unfold c, Client_init. cbn [verify_server].
    apply String.eqb_neq in Hp. rewrite Hp. reflexivity. }
  assert (Hv2 : ca_bundle = None \/ ca_bundle = Some "" ->
                verify_server c = VerifyBool verify).
  { intros [-> | ->]; reflexivity. }
  destruct Hcase as [-> | [-> | ->]]; cbn [req_verify req_cert req_url];
    (split; [exact Hv1 | split; [exact Hv2 | split; [reflexivity | exact Hurl]]]).
Qed.

Lemma client_requests_carry_bundle_witness :
  req_verify (get_request (Client_init "runner:5001" false (Some "/etc/ca.pem")
                             "client.crt" "client.key") "api")
  = VerifyBundle "/etc/ca.pem".
Proof.
  apply (proj1 (client_requests_carry_bundle "runner:5001" false (Some "/etc/ca.pem")
                  "client.crt" "client.key" "api" JNull JNull
                  (answering (Responds (mkResponse 200 "OK" "")))
                  (get_request (Client_init "runner:5001" false (Some "/etc/ca.pem")
                                  "client.crt" "client.key") "api")
                  (or_introl eq_refl)) "/etc/ca.pem");
    [reflexivity | discriminate].
Defined.

(** ** Further properties: the execution handle *)

Lemma get_status_not_launched (h : PlayBookExecution) (w : World) :
  play_uuid h = JStr "-" ->
  get_status (h, w)
  = (inr NOT_LAUNCHED,
     (h, mkWorld (remote w) (sent w) (log w ++ [status_record NOT_LAUNCHED]))).
Proof.
  intros H. unfold get_status, bind, get_self. cbn [fst snd]. rewrite H. reflexivity.
Qed.

Lemma get_status_launch_failed (h : PlayBookExecution) (w : World) :
  play_uuid h = JStr "" ->
  get_status (h, w)
  = (inr ERROR, (h, mkWorld (remote w) (sent w) (log w ++ [status_record ERROR]))).
Proof.
  intros H. unfold get_status, bind, get_self. cbn [fst snd]. rewrite H. reflexivity.
Qed.

(** X5: without an identifier the handle answers on its own: for ["-"]
    and for the empty string [get_status] makes no call and only writes
    its status record, and for an identifier that is false (the empty
    string) [get_result] returns the empty mapping and touches nothing,
    not even the log. *)
Theorem no_identifier_no_call (h : PlayBookExecution) (ef : list string) (w : World) :
  (play_uuid h = JStr "-" ->
   get_status (h, w)
   = (inr NOT_LAUNCHED,
      (h, mkWorld (remote w) (sent w) (log w ++ [status_record NOT_LAUNCHED]))))
  /\ (play_uuid h = JStr "" ->
      get_status (h, w)
      = (inr ERROR, (h, mkWorld (remote w) (sent w) (log w ++ [status_record ERROR])))
      /\ get_result ef (h, w) = (inr (JObj []), (h, w))).
Proof.
  split.
  - apply get_status_not_launched.
  - intros H. split; [apply get_status_launch_failed; exact H |].
    apply get_result_no_identifier. rewrite H. reflexivity.
Qed.

Lemma no_identifier_no_call_witness :
  sent (snd (snd (get_status (fresh_handle, answering (Raises StackIOError "down")))))
  = []
  /\ get_result ["runner_on_ok"] (handle_with "" "", answering (Responds events_response))
     = (inr (JObj []), (handle_with "" "", answering (Responds events_response))).
Proof.
  split.
  - rewrite (proj1 (no_identifier_no_call fresh_handle []
                      (answering (Raises StackIOError "down"))) eq_refl).
    reflexivity.
  - apply (proj2 (no_identifier_no_call (handle_with "" "") ["runner_on_ok"]
                    (answering (Responds events_response))) eq_refl).
Defined.

Lemma get_status_state (h : PlayBookExecution) (w : World) :
  exists w', snd (get_status (h, w)) = (h, w') /\ remote w' = remote w.
Proof.
  destruct (py_eq_str (play_uuid h) "-") eqn:E1.
  { apply py_eq_str_true in E1. rewrite (get_status_not_launched h w E1).
    eexists. split; reflexivity. }
  destruct (py_eq_str (play_uuid h) "") eqn:E2.
  { apply py_eq_str_true in E2. rewrite (get_status_launch_failed h w E2).
    eexists. split; reflexivity. }
  apply py_eq_str_false in E1, E2.
  destruct (get_status_run h w E1 E2) as [lg ->]. eexists. split; reflexivity.
Qed.

Lemma get_result_state (ef : list string) (h : PlayBookExecution) (w : World) :
  exists w', snd (get_result ef (h, w)) = (h, w') /\ remote w' = remote w.
Proof.
  destruct (py_truthy (play_uuid h)) eqn:Hid.
  - destruct (get_result_run ef h w Hid) as [lg ->]. eexists. split; reflexivity.
  - rewrite (get_result_no_identifier ef h w Hid). eexists. split; reflexivity.
Qed.

Lemma launch_outcome_fields (h : PlayBookExecution) (o : stack_outcome) :
  let h' := snd (launch_outcome h o) in
  rest_client h' = rest_client h /\ result_task_pattern h' = result_task_pattern h
  /\ playbook h' = playbook h /\ params h' = params h
  /\ querystr_dict h' = querystr_dict h.
Proof.
  unfold launch_outcome. destruct o as [f msg | r]; cbn [snd]; [repeat split |].
  destruct (ok r); [| repeat split].
  destruct (play_uuid_of r); repeat split.
Qed.

Lemma launch_outcome_raises (h : PlayBookExecution) (o : stack_outcome) (e : exception) :
  fst (launch_outcome h o) = inl e -> snd (launch_outcome h o) = h.
Proof.
  unfold launch_outcome. destruct o as [f msg | r]; cbn [snd]; [reflexivity |].
  destruct (ok r); [| reflexivity].
  destruct (play_uuid_of r); [reflexivity | discriminate].
Qed.

(** X6: [get_status] and [get_result] only read the handle: every field,
    the identifier included, is as before, whatever the service does; and
    [launch] changes no field but the identifier. *)
Theorem status_and_result_leave_handle (h : PlayBookExecution) (ef : list string)
    (w : World) :
  fst (snd (get_status (h, w))) = h
  /\ fst (snd (get_result ef (h, w))) = h
  /\ with_play_uuid (fst (snd (launch (h, w)))) (play_uuid h) = h.
Proof.
  split; [| split].
  - destruct (get_status_state h w) as (w' & -> & _). reflexivity.
  - destruct (get_result_state ef h w) as (w' & -> & _). reflexivity.
  - destruct (launch_run h w) as [lg ->]. cbn [fst snd].
    destruct (launch_outcome_fields h (remote w (sent w) (launch_request h)))
      as (H1 & H2 & H3 & H4 & H5).
    unfold with_play_uuid. rewrite H1, H2, H3, H4, H5. destruct h; reflexivity.
Qed.

(** X7: when the POST of [launch] fails at the I/O level, [launch] writes
    one more record, the exception record that names the playbook, after
    what the transport wrote, raises the transport error with the message
    of the failure again, and leaves the handle as it was. *)
Theorem launch_transport_failure_is_logged_and_raised (h : PlayBookExecution)
    (w : World) (f : stack_failure) (msg : string) :
  remote w (sent w) (launch_request h) = Raises f msg ->
  io_level f = true ->
  launch (h, w)
  = (inl (Exc AnsibleRunnerServiceError msg),
     (h, mkWorld (remote w) (sent w ++ [launch_request h])
           (log w ++ [launch_failure_record h]))).
Proof.
  intros E Hio. unfold launch, bind, get_self, try_except, lift_world. cbn [fst snd].
  fold (launch_endpoint h). unfold launch_request in E.
  rewrite (http_post_raises _ _ _ _ _ _ _ E). unfold raised_class. rewrite Hio.
  cbn. unfold after_call, launch_request, launch_failure_record, launch_endpoint.
  cbn. rewrite app_nil_r. reflexivity.
Qed.

Lemma launch_transport_failure_is_logged_and_raised_witness :
  fst (launch (fresh_handle, answering (Raises StackRequestException "no route")))
  = inl (Exc AnsibleRunnerServiceError "no route")
  /\ log (snd (snd (launch (fresh_handle,
                            answering (Raises StackRequestException "no route")))))
     = [mkLog EXCEPTION "Error launching playbook <%s>" [LStr "osd.yml"]].
Proof.
  rewrite (launch_transport_failure_is_logged_and_raised fresh_handle
             (answering (Raises StackRequestException "no route"))
             StackRequestException "no route" eq_refl eq_refl).
  split; reflexivity.
Defined.

(** X8: whenever [launch] raises, for whatever reason (a failure of the
    HTTP stack, an error response, a body without [data.play_uuid]), the
    handle is as before; a handle fresh from [__init__] therefore still
    reports NOT_LAUNCHED afterwards, not ERROR, and without a call. *)
Theorem failed_launch_leaves_not_launched (h : PlayBookExecution) (w : World)
    (e : exception) :
  fst (launch (h, w)) = inl e ->
  fst (snd (launch (h, w))) = h
  /\ (play_uuid h = JStr "-" ->
      fst (get_status (snd (launch (h, w)))) = inr NOT_LAUNCHED
      /\ sent (snd (snd (get_status (snd (launch (h, w))))))
         = sent (snd (snd (launch (h, w))))).
Proof.
  intros H. destruct (launch_run h w) as [lg Hr]. rewrite Hr in *. cbn [fst snd] in *.
  rewrite (launch_outcome_raises _ _ _ H).
  split; [reflexivity |]. intros Hid.
  rewrite (get_status_not_launched h _ Hid). split; reflexivity.
Qed.

Lemma failed_launch_leaves_not_launched_witness :
  fst (get_status (snd (launch (fresh_handle,
                                answering (Responds (mkResponse 404 "NOT FOUND" ""))))))
  = inr NOT_LAUNCHED.
Proof.
  apply (proj2 (failed_launch_leaves_not_launched fresh_handle
                  (answering (Responds (mkResponse 404 "NOT FOUND" "")))
                  (Exc AnsibleRunnerServiceError "NOT FOUND") eq_refl) eq_refl).
Defined.

(** X9: a response to [launch] that is no HTTP error but whose body is a
    JSON object without [data], or whose [data] is an object without
    [play_uuid], makes [launch] raise [KeyError] for the missing key, and
    the identifier is not touched. *)
Theorem launch_body_without_identifier_raises_key_error (h : PlayBookExecution)
    (w : World) (r : Response) (m : list (string * json)) :
  remote w (sent w) (launch_request h) = Responds r ->
  ok r = true ->
  json_loads (text r) = inr (JObj m) ->
  (dict_get m "data" = None ->
   fst (launch (h, w)) = inl (Exc KeyError (repr_str "data"))
   /\ fst (snd (launch (h, w))) = h)
  /\ (forall d, dict_get m "data" = Some (JObj d) -> dict_get d "play_uuid" = None ->
      fst (launch (h, w)) = inl (Exc KeyError (repr_str "play_uuid"))
      /\ fst (snd (launch (h, w))) = h).
Proof.
  intros E Hok Hb. destruct (launch_run h w) as [lg ->]. cbn [fst snd].
  rewrite E. unfold launch_outcome, play_uuid_of. rewrite Hok, Hb. split.
  - intros Hd. unfold getitem. rewrite Hd. split; reflexivity.
  - intros d Hd Hu. unfold getitem. rewrite Hd, Hu. split; reflexivity.
Qed.

Lemma launch_body_without_identifier_raises_key_error_witness :
  fst (launch (fresh_handle, answering (Responds (mkResponse 200 "OK" "{}"))))
  = inl (Exc KeyError "'data'")
  /\ play_uuid (fst (snd (launch (fresh_handle,
                                  answering (Responds (mkResponse 200 "OK" "{}"))))))
     = JStr "-".
Proof.
  destruct (proj1 (launch_body_without_identifier_raises_key_error fresh_handle
                     (answering (Responds (mkResponse 200 "OK" "{}")))
                     (mkResponse 200 "OK" "{}") [] eq_refl eq_refl
                     ltac:(vm_compute; reflexivity)) eq_refl) as [H1 H2].
  split; [exact H1 | rewrite H2; reflexivity].
Defined.

(** X10: after a [launch] that stored the identifier [u] (a str other than
    ["-"] and the empty string), [get_status] makes its GET on
    [api/v1/playbooks/u]: the two calls of [launch(); get_status()] are the
    POST and that GET, in this order, and the status is the one the answer
    to the GET stands for. *)
Theorem launch_then_get_status_polls_new_identifier (h : PlayBookExecution)
    (w : World) (r : Response) (u : string) :
  remote w (sent w) (launch_request h) = Responds r ->
  ok r = true ->
  play_uuid_of r = inr (JStr u) ->
  u <> "-" -> u <> "" ->
  let poll := get_request (rest_client h) (PLAYBOOK_EXEC_URL ++ "/" ++ u) in
  fst (launch_then_get_status (h, w))
  = status_outcome (remote w (sent w ++ [launch_request h]) poll)
  /\ sent (snd (snd (launch_then_get_status (h, w))))
     = (sent w ++ [launch_request h; poll])%list
  /\ play_uuid (fst (snd (launch_then_get_status (h, w)))) = JStr u.
Proof.
  intros E Hok Hu N1 N2 poll.
  unfold launch_then_get_status, bind.
  destruct (launch_run h w) as [lg ->]. rewrite E.
  unfold launch_outcome. rewrite Hok, Hu. cbn [fst snd].
  assert (M1 : play_uuid (with_play_uuid h (JStr u)) <> JStr "-")
    by (cbn; congruence).
  assert (M2 : play_uuid (with_play_uuid h (JStr u)) <> JStr "")
    by (cbn; congruence).
  destruct (get_status_run (with_play_uuid h (JStr u))
              (after_call w (launch_request h) lg) M1 M2) as [lg' ->].
  cbn [fst snd]. unfold after_call. cbn [remote sent log].
  split; [reflexivity |]. split; [| reflexivity].
  rewrite <- app_assoc. reflexivity.
Qed.

Lemma launch_then_get_status_polls_new_identifier_witness :
  fst (launch_then_get_status
         (fresh_handle,
          mkWorld (fun hist rq =>
                     match hist with
                     | [] => Responds (mkResponse 202 "ACCEPTED"
                               (sample_text (JObj [("data",
                                  JObj [("play_uuid", JStr "1733c3ac")])])))
                     | _ => Responds (mkResponse 200 "OK" (msg_body "running"))
                     end) [] []))
  = inr ON_GOING.
Proof.
  rewrite (proj1 (launch_then_get_status_polls_new_identifier fresh_handle
             (mkWorld (fun hist rq =>
                     match hist with
                     | [] => Responds (mkResponse 202 "ACCEPTED"
                               (sample_text (JObj [("data",
                                  JObj [("play_uuid", JStr "1733c3ac")])])))
                     | _ => Responds (mkResponse 200 "OK" (msg_body "running"))
                     end) [] [])
             (mkResponse 202 "ACCEPTED"
                (sample_text (JObj [("data", JObj [("play_uuid", JStr "1733c3ac")])])))
             "1733c3ac" eq_refl eq_refl ltac:(vm_compute; reflexivity)
             ltac:(discriminate) ltac:(discriminate))).
  vm_compute. reflexivity.
Defined.

(** X11: a response to the status GET that is no HTTP error but whose body
    is a JSON object without [msg] makes [get_status] raise [KeyError]; it
    is not turned into ERROR. *)
Theorem get_status_body_without_msg_raises_key_error (h : PlayBookExecution)
    (w : World) (r : Response) (m : list (string * json)) :
  play_uuid h <> JStr "-" -> play_uuid h <> JStr "" ->
  remote w (sent w) (get_request (rest_client h) (status_endpoint h)) = Responds r ->
  ok r = true ->
  json_loads (text r) = inr (JObj m) ->
  dict_get m "msg" = None ->
  fst (get_status (h, w)) = inl (Exc KeyError (repr_str "msg")).
Proof.
  intros H1 H2 E Hok Hb Hm. destruct (get_status_run h w H1 H2) as [lg ->].
  cbn [fst]. rewrite E. unfold status_outcome, msg_of, getitem.
  rewrite Hok, Hb, Hm. reflexivity.
Qed.

Lemma get_status_body_without_msg_raises_key_error_witness :
  fst (get_status (handle_with "abc" "", answering (Responds (mkResponse 200 "OK" "{}"))))
  = inl (Exc KeyError "'msg'").
Proof.
  apply (get_status_body_without_msg_raises_key_error (handle_with "abc" "")
           (answering (Responds (mkResponse 200 "OK" "{}")))
           (mkResponse 200 "OK" "{}") []);
    solve [discriminate | reflexivity | vm_compute; reflexivity].
Defined.

(** X12: with an identifier, [get_result] returns the empty mapping, and
    raises nothing, when its GET fails at the I/O level and when it is
    answered by an HTTP error (400 to 599), whatever the body, the task
    pattern and the event filter. *)
Theorem get_result_failed_get_gives_empty (h : PlayBookExecution) (ef : list string)
    (w : World) :
  py_truthy (play_uuid h) = true ->
  (forall f msg,
     remote w (sent w) (get_request (rest_client h) (events_endpoint h)) = Raises f msg ->
     io_level f = true ->
     fst (get_result ef (h, w)) = inr (JObj []))
  /\ (forall r,
     remote w (sent w) (get_request (rest_client h) (events_endpoint h)) = Responds r ->
     400 <= status_code r < 600 ->
     fst (get_result ef (h, w)) = inr (JObj [])).
Proof.
  intros Hid. destruct (get_result_run ef h w Hid) as [lg ->]. cbn [fst]. split.
  - intros f msg E Hio. rewrite E. unfold result_outcome. rewrite Hio. reflexivity.
  - intros r E Hs. rewrite E. unfold result_outcome, ok.
    replace (400 <=? status_code r) with true by (symmetry; apply Z.leb_le; lia).
    replace (status_code r <? 600) with true by (symmetry; apply Z.ltb_lt; lia).
    reflexivity.
Qed.

Lemma get_result_failed_get_gives_empty_witness :
  fst (get_result ["runner_on_ok"]
         (handle_with "abc" "Gathering", answering (Raises StackIOError "timed out")))
  = inr (JObj [])
  /\ fst (get_result []
            (handle_with "abc" "",
             answering (Responds (mkResponse 500 "INTERNAL SERVER ERROR"
                                    (events_body (JObj sample_events))))))
     = inr (JObj []).
Proof.
  split.
  - apply (proj1 (get_result_failed_get_gives_empty (handle_with "abc" "Gathering")
                    ["runner_on_ok"] (answering (Raises StackIOError "timed out"))
                    eq_refl) StackIOError "timed out"); reflexivity.
  - apply (proj2 (get_result_failed_get_gives_empty (handle_with "abc" "") []
                    (answering (Responds (mkResponse 500 "INTERNAL SERVER ERROR"
                                            (events_body (JObj sample_events)))))
                    eq_refl)
             (mkResponse 500 "INTERNAL SERVER ERROR" (events_body (JObj sample_events))));
      [reflexivity | simpl; lia].
Defined.

(** ** Further properties: the filters *)

Lemma comprehension_kept (cond : string * json -> exception + bool)
    (l l' : list (string * json)) :
  comprehension cond l = inr l' -> l' = filter (kept_by cond) l.
Proof.
  revert l'. induction l as [| kv l IH]; simpl; intros l' H.
  - injection H as <-. reflexivity.
  - unfold kept_by at 1. destruct (cond kv) as [e | b]; [discriminate |].
    destruct (comprehension cond l) as [e | r]; [discriminate |].
    injection H as <-. rewrite (IH r eq_refl). destruct b; reflexivity.
Qed.

Lemma comprehension_first_error (cond : string * json -> exception + bool)
    (l1 l2 : list (string * json)) (kv : string * json) (e : exception) :
  Forall (fun x => exists b, cond x = inr b) l1 ->
  cond kv = inl e ->
  comprehension cond (l1 ++ kv :: l2) = inl e.
Proof.
  intros H1 Hkv. induction H1 as [| x l1 [b Hx] _ IH]; simpl.
  - rewrite Hkv. reflexivity.
  - rewrite Hx, IH. reflexivity.
Qed.

Lemma filter_filter (f g : string * json -> bool) (l : list (string * json)) :
  filter g (filter f l) = filter (fun kv => f kv && g kv) l.
Proof.
  induction l as [| kv l IH]; simpl; [reflexivity |].
  destruct (f kv); simpl; [destruct (g kv) |]; rewrite IH; reflexivity.
Qed.

(** The result of [get_result] on a response that is no HTTP error. *)
Lemma get_result_ok_run (h : PlayBookExecution) (ef : list string) (w : World)
    (r : Response) (events : json) :
  py_truthy (play_uuid h) = true ->
  remote w (sent w) (get_request (rest_client h) (events_endpoint h)) = Responds r ->
  ok r = true ->
  events_of r = inr events ->
  fst (get_result ef (h, w))
  = match filter_by_task (result_task_pattern h) events with
    | inl e => inl e
    | inr result_events => filter_by_event ef result_events
    end.
Proof.
  intros Hid E Hok He. destruct (get_result_run ef h w Hid) as [lg ->]. cbn [fst].
  rewrite E. unfold result_outcome. rewrite Hok, filter_events_run, He. reflexivity.
Qed.

Lemma filter_by_event_plain (name : string) (names : list string)
    (l : list (string * json)) :
  forallb plain (name :: names) = true ->
  Forall (fun kv => event_typed (snd kv) = true) l ->
  filter_by_event (name :: names) (JObj l)
  = inr (JObj (filter (event_starts_with (name :: names)) l)).
Proof.
  intros Hp Ht.
  rewrite (filter_by_event_selected name names (literals (name :: names)) l
             (re_compile_plain_names (name :: names) ltac:(discriminate) Hp) Ht).
  do 2 f_equal. apply filter_ext. intros kv.
  unfold event_selected, event_starts_with.
  destruct (str_field "event" (snd kv)); [| reflexivity].
  apply prefix_match_literals. discriminate.
Qed.

Lemma filter_by_task_plain (p : string) (entries : list (string * json)) :
  p <> "" -> plain p = true ->
  Forall (fun kv => task_typed (snd kv) = true) entries ->
  filter_by_task p (JObj entries) = inr (JObj (filter (task_starts_with p) entries)).
Proof.
  intros Hne Hp Ht.
  rewrite (filter_by_task_selected p (literal p) entries Hne (re_compile_plain p Hp) Ht).
  do 2 f_equal. apply filter_ext. intros kv.
  unfold task_selected, task_starts_with.
  destruct (str_field "task" (snd kv)); [apply prefix_match_literal | reflexivity].
Qed.

(** X13: the event filter is not as forgiving as the task filter: an entry
    that reaches it without an [event] key makes the whole [get_result]
    raise [KeyError], it is not dropped.  (The entries before it are dicts
    with a str [event], and the names compile.) *)
Theorem get_result_entry_without_event_raises_key_error (h : PlayBookExecution)
    (w : World) (r : Response) (events : json) (l1 l2 : list (string * json))
    (k : string) (m : list (string * json)) (name : string) (names : list string)
    (rx : regex) :
  py_truthy (play_uuid h) = true ->
  remote w (sent w) (get_request (rest_client h) (events_endpoint h)) = Responds r ->
  ok r = true ->
  events_of r = inr events ->
  filter_by_task (result_task_pattern h) events = inr (JObj (l1 ++ (k, JObj m) :: l2)) ->
  Forall (fun kv => event_typed (snd kv) = true) l1 ->
  re_compile (join "|" (name :: names)) = inr rx ->
  dict_get m "event" = None ->
  fst (get_result (name :: names) (h, w)) = inl (Exc KeyError (repr_str "event")).
Proof.
  intros Hid E Hok He Hl Ht Hc Hm.
  rewrite (get_result_ok_run h _ w r events Hid E Hok He), Hl.
  unfold filter_by_event. cbn [items].
  rewrite (comprehension_first_error _ l1 l2 (k, JObj m)
             (Exc KeyError (repr_str "event"))); [reflexivity | |].
  - eapply Forall_impl; [| exact Ht]. intros kv Hkv.
    exists (event_selected rx kv). apply event_cond_selected; assumption.
  - unfold event_cond, getitem. cbn [snd]. rewrite Hm. reflexivity.
Qed.

Lemma get_result_entry_without_event_raises_key_error_witness :
  fst (get_result ["runner_on_ok"]
         (handle_with "abc" "",
          answering (Responds (mkResponse 200 "OK"
            (events_body (JObj [("1-a", JObj [("event", JStr "runner_on_ok")]);
                                ("2-b", JObj [("task", JStr "Install")])]))))))
  = inl (Exc KeyError "'event'").
Proof.
  apply (get_result_entry_without_event_raises_key_error (handle_with "abc" "")
           (answering (Responds (mkResponse 200 "OK"
              (events_body (JObj [("1-a", JObj [("event", JStr "runner_on_ok")]);
                                  ("2-b", JObj [("task", JStr "Install")])])))))
           (mkResponse 200 "OK"
              (events_body (JObj [("1-a", JObj [("event", JStr "runner_on_ok")]);
                                  ("2-b", JObj [("task", JStr "Install")])])))
           (JObj [("1-a", JObj [("event", JStr "runner_on_ok")]);
                  ("2-b", JObj [("task", JStr "Install")])])
           [("1-a", JObj [("event", JStr "runner_on_ok")])] []
           "2-b" [("task", JStr "Install")] "runner_on_ok" []
           (literal "runner_on_ok"));
    solve [reflexivity | vm_compute; reflexivity | repeat constructor].
Defined.

(** X14: whatever the task pattern and the event filter, a result that
    [get_result] returns for an events mapping is that mapping restricted
    to some of its entries: the entries kept have their key and detail
    unchanged and stay in the order of the response, and none is added. *)
Theorem get_result_returns_a_restriction (h : PlayBookExecution) (ef : list string)
    (w : World) (r : Response) (entries : list (string * json)) (v : json) :
  py_truthy (play_uuid h) = true ->
  remote w (sent w) (get_request (rest_client h) (events_endpoint h)) = Responds r ->
  ok r = true ->
  events_of r = inr (JObj entries) ->
  fst (get_result ef (h, w)) = inr v ->
  exists keep, v = JObj (filter keep entries).
Proof.
  intros Hid E Hok He Hv.
  rewrite (get_result_ok_run h ef w r _ Hid E Hok He) in Hv.
  assert (Ht : exists f l, filter_by_task (result_task_pattern h) (JObj entries)
                           = inr (JObj l) /\ l = filter f entries
                           \/ exists e, filter_by_task (result_task_pattern h)
                                          (JObj entries) = inl e).
  { unfold filter_by_task.
    destruct (negb (String.eqb (result_task_pattern h) "")); cbn [items].
    - destruct (comprehension (task_cond (result_task_pattern h)) entries)
        as [e | l] eqn:C.
      + exists (fun _ => true), []. right. exists e. reflexivity.
      + exists (kept_by (task_cond (result_task_pattern h))), l. left.
        split; [reflexivity | apply comprehension_kept; exact C].
    - exists (fun _ => true), entries. left. split; [reflexivity |].
      symmetry. apply forallb_filter_id. apply forallb_forall. reflexivity. }
  destruct Ht as (f & l & [[Hl ->] | [e He']]); [| rewrite He' in Hv; discriminate].
  rewrite Hl in Hv. unfold filter_by_event in Hv.
  destruct ef as [| name names].
  - injection Hv as <-. exists f. reflexivity.
  - cbn [items] in Hv.
    destruct (comprehension (event_cond (join "|" (name :: names))) (filter f entries))
      as [e | l'] eqn:C; [discriminate |].
    injection Hv as <-. apply comprehension_kept in C. subst l'.
    rewrite filter_filter. eexists. reflexivity.
Qed.

Lemma get_result_returns_a_restriction_witness :
  exists keep,
    JObj [("2-b", JObj [("event", JStr "playbook_on_stats")])]
    = JObj (filter keep sample_events).
Proof.
  apply (get_result_returns_a_restriction (handle_with "abc" "") ["playbook"]
           (answering (Responds events_response)) events_response sample_events
           (JObj [("2-b", JObj [("event", JStr "playbook_on_stats")])]));
    vm_compute; reflexivity.
Defined.

(** X15: an empty name among the names of the event filter switches the
    filter off: the names joined by bars then match every [event], and the
    task-filtered events come back whole.  (The names have no special
    characters and the event details are dicts with a str [event].) *)
Theorem empty_event_name_keeps_everything (h : PlayBookExecution) (w : World)
    (r : Response) (events : json) (l : list (string * json))
    (name : string) (names : list string) :
  py_truthy (play_uuid h) = true ->
  remote w (sent w) (get_request (rest_client h) (events_endpoint h)) = Responds r ->
  ok r = true ->
  events_of r = inr events ->
  filter_by_task (result_task_pattern h) events = inr (JObj l) ->
  Forall (fun kv => event_typed (snd kv) = true) l ->
  forallb plain (name :: names) = true ->
  In "" (name :: names) ->
  fst (get_result (name :: names) (h, w)) = inr (JObj l).
Proof.
  intros Hid E Hok He Hl Ht Hp Hin.
  rewrite (get_result_ok_run h _ w r events Hid E Hok He), Hl.
  rewrite (filter_by_event_plain name names l Hp Ht).
  do 2 f_equal. apply forallb_filter_id. apply forallb_forall.
  intros kv Hkv. rewrite Forall_forall in Ht. specialize (Ht kv Hkv).
  unfold event_typed in Ht. unfold event_starts_with.
  destruct (str_field "event" (snd kv)) as [ev |]; [| discriminate].
  apply existsb_exists. exists "". split; [exact Hin |].
  destruct ev; reflexivity.
Qed.

Lemma empty_event_name_keeps_everything_witness :
  fst (get_result ["runner_on_failed"; ""]
         (handle_with "abc" "", answering (Responds events_response)))
  = inr (JObj sample_events).
Proof.
  apply (empty_event_name_keeps_everything (handle_with "abc" "")
           (answering (Responds events_response)) events_response
           (JObj sample_events) sample_events "runner_on_failed" [""]);
    solve [reflexivity | vm_compute; reflexivity | repeat constructor
           | right; left; reflexivity].
Defined.

Lemma existsb_same_names (f : string -> bool) (l1 l2 : list string) :
  same_names l1 l2 -> existsb f l1 = existsb f l2.
Proof.
  intros H. apply eq_true_iff_eq. rewrite !existsb_exists.
  split; intros (n & Hin & Hf); exists n; (split; [apply H; exact Hin | exact Hf]).
Qed.

(** X16: for names without special characters, the order of the names in
    the event filter and their repetition do not matter: two filters with
    the same names give the same result.  (The event details are dicts
    with a str [event].) *)
Theorem event_filter_is_a_set_of_names (h : PlayBookExecution) (w : World)
    (r : Response) (events : json) (l : list (string * json))
    (n1 n2 : string) (l1 l2 : list string) :
  py_truthy (play_uuid h) = true ->
  remote w (sent w) (get_request (rest_client h) (events_endpoint h)) = Responds r ->
  ok r = true ->
  events_of r = inr events ->
  filter_by_task (result_task_pattern h) events = inr (JObj l) ->
  Forall (fun kv => event_typed (snd kv) = true) l ->
  forallb plain (n1 :: l1) = true ->
  forallb plain (n2 :: l2) = true ->
  same_names (n1 :: l1) (n2 :: l2) ->
  fst (get_result (n1 :: l1) (h, w)) = fst (get_result (n2 :: l2) (h, w)).
Proof.
  intros Hid E Hok He Hl Ht Hp1 Hp2 Hs.
  rewrite !(get_result_ok_run h _ w r events Hid E Hok He), Hl.
  rewrite (filter_by_event_plain n1 l1 l Hp1 Ht), (filter_by_event_plain n2 l2 l Hp2 Ht).
  do 2 f_equal. apply filter_ext. intros kv. unfold event_starts_with.
  destruct (str_field "event" (snd kv)); [| reflexivity].
  apply existsb_same_names. exact Hs.
Qed.

Lemma event_filter_is_a_set_of_names_witness :
  fst (get_result ["runner_on_ok"; "playbook_on"]
         (handle_with "abc" "", answering (Responds events_response)))
  = fst (get_result ["playbook_on"; "runner_on_ok"; "playbook_on"]
           (handle_with "abc" "", answering (Responds events_response))).
Proof.
  apply (event_filter_is_a_set_of_names (handle_with "abc" "")
           (answering (Responds events_response)) events_response
           (JObj sample_events) sample_events
           "runner_on_ok" "playbook_on" ["playbook_on"] ["runner_on_ok"; "playbook_on"]);
    try solve [reflexivity | vm_compute; reflexivity | repeat constructor].
  intros n. simpl. tauto.
Defined.

(** X17: the two filters compose into one: with a task pattern and event
    names, all without special characters, [get_result] keeps exactly the
    events whose [task] starts with the pattern and whose [event] starts
    with one of the names; an event with a matching [event] but no [task]
    is dropped.  (The event details are dicts whose [task], if any, is a
    str, and those with a selected task have a str [event].) *)
Theorem get_result_applies_both_filters (h : PlayBookExecution) (w : World)
    (r : Response) (entries : list (string * json)) (name : string)
    (names : list string) :
  py_truthy (play_uuid h) = true ->
  remote w (sent w) (get_request (rest_client h) (events_endpoint h)) = Responds r ->
  ok r = true ->
  events_of r = inr (JObj entries) ->
  result_task_pattern h <> "" ->
  plain (result_task_pattern h) = true ->
  forallb plain (name :: names) = true ->
  Forall (fun kv => task_typed (snd kv) = true) entries ->
  Forall (fun kv => task_starts_with (result_task_pattern h) kv = true ->
                    event_typed (snd kv) = true) entries ->
  fst (get_result (name :: names) (h, w))
  = inr (JObj (filter (fun kv => task_starts_with (result_task_pattern h) kv
                                && event_starts_with (name :: names) kv) entries)).
Proof.
  intros Hid E Hok He Hne Hp Hps Ht Hev.
  rewrite (get_result_ok_run h _ w r _ Hid E Hok He).
  rewrite (filter_by_task_plain _ entries Hne Hp Ht).
  rewrite filter_by_event_plain; [rewrite filter_filter; reflexivity | exact Hps |].
  apply Forall_forall. intros kv Hkv. apply filter_In in Hkv. destruct Hkv as [Hin Hsel].
  rewrite Forall_forall in Hev. apply (Hev kv Hin Hsel).
Qed.

Lemma get_result_applies_both_filters_witness :
  fst (get_result ["runner_on_ok"; "playbook_on"]
         (handle_with "abc" "Gathering", answering (Responds events_response)))
  = inr (JObj
      [("1-a", JObj [("event", JStr "runner_on_ok"); ("task", JStr "Gathering Facts")])]).
Proof.
  apply (get_result_applies_both_filters (handle_with "abc" "Gathering")
           (answering (Responds events_response)) events_response sample_events
           "runner_on_ok" ["playbook_on"]);
    try solve [reflexivity | discriminate | vm_compute; reflexivity].
  - repeat constructor.
  - repeat constructor.
Defined.

(** ** Further properties: what is not caught, what is not checked *)

(** X18: only [RequestException] and [IOError] are translated, and only the
    transport error is caught by the handle: an exception of another class
    raised by the HTTP stack leaves [http_get], [is_operative], [launch],
    [get_status] and [get_result] as it is; [get_status] does not turn it
    into ERROR, nor [get_result] into the empty mapping. *)
Theorem other_exceptions_pass_through (c : Client) (ep : string)
    (h : PlayBookExecution) (ef : list string) (w : World) (msg : string) :
  (remote w (sent w) (get_request c ep) = Raises StackOther msg ->
   fst (http_get c ep w) = inl (Exc OtherException msg))
  /\ (remote w (sent w) (get_request c API_URL) = Raises StackOther msg ->
      fst (is_operative c w) = inl (Exc OtherException msg))
  /\ (remote w (sent w) (launch_request h) = Raises StackOther msg ->
      fst (launch (h, w)) = inl (Exc OtherException msg))
  /\ (play_uuid h <> JStr "-" -> play_uuid h <> JStr "" ->
      remote w (sent w) (get_request (rest_client h) (status_endpoint h))
      = Raises StackOther msg ->
      fst (get_status (h, w)) = inl (Exc OtherException msg))
  /\ (py_truthy (play_uuid h) = true ->
      remote w (sent w) (get_request (rest_client h) (events_endpoint h))
      = Raises StackOther msg ->
      fst (get_result ef (h, w)) = inl (Exc OtherException msg)).
Proof.
  split; [| split; [| split; [| split]]].
  - intros E. rewrite (http_get_raises _ _ _ _ _ E). reflexivity.
  - intros E. rewrite is_operative_run, E. reflexivity.
  - intros E. destruct (launch_run h w) as [lg ->]. cbn [fst]. rewrite E. reflexivity.
  - intros H1 H2 E. destruct (get_status_run h w H1 H2) as [lg ->]. cbn [fst].
    rewrite E. reflexivity.
  - intros Hid E. destruct (get_result_run ef h w Hid) as [lg ->]. cbn [fst].
    rewrite E. reflexivity.
Qed.

Lemma other_exceptions_pass_through_witness :
  fst (get_status (handle_with "abc" "", answering (Raises StackOther "interrupted")))
  = inl (Exc OtherException "interrupted")
  /\ fst (get_result [] (handle_with "abc" "", answering (Raises StackOther "interrupted")))
     = inl (Exc OtherException "interrupted").
Proof.
  destruct (other_exceptions_pass_through demo_client "api" (handle_with "abc" "") []
              (answering (Raises StackOther "interrupted")) "interrupted")
    as (_ & _ & _ & H4 & H5).
  split.
  - apply H4; solve [discriminate | reflexivity].
  - apply H5; reflexivity.
Defined.

(** X19: [get_result] does not check that [data.events] is a mapping: a
    JSON array there comes back as it is when there is neither task pattern
    nor event filter, and makes the call raise [AttributeError], for the
    missing [items], as soon as one of the two filters is on. *)
Theorem get_result_events_not_a_mapping (h : PlayBookExecution) (w : World)
    (r : Response) (a : list json) (name : string) (names : list string) :
  py_truthy (play_uuid h) = true ->
  remote w (sent w) (get_request (rest_client h) (events_endpoint h)) = Responds r ->
  ok r = true ->
  events_of r = inr (JArr a) ->
  (result_task_pattern h = "" -> fst (get_result [] (h, w)) = inr (JArr a))
  /\ (result_task_pattern h = "" ->
      exists e, fst (get_result (name :: names) (h, w)) = inl e
                /\ exc_type e = AttributeError)
  /\ (result_task_pattern h <> "" ->
      forall ef, exists e, fst (get_result ef (h, w)) = inl e
                           /\ exc_type e = AttributeError).
Proof.
  intros Hid E Hok He. split; [| split].
  - intros Hp. rewrite (get_result_ok_run h _ w r _ Hid E Hok He).
    unfold filter_by_task. rewrite Hp. reflexivity.
  - intros Hp. rewrite (get_result_ok_run h _ w r _ Hid E Hok He).
    unfold filter_by_task. rewrite Hp. cbn. eexists. split; reflexivity.
  - intros Hp ef. rewrite (get_result_ok_run h _ w r _ Hid E Hok He).
    unfold filter_by_task. apply String.eqb_neq in Hp. rewrite Hp. cbn.
    eexists. split; reflexivity.
Qed.

Lemma get_result_events_not_a_mapping_witness :
  fst (get_result []
         (handle_with "abc" "",
          answering (Responds (mkResponse 200 "OK" (events_body (JArr [JInt 1]))))))
  = inr (JArr [JInt 1])
  /\ exists e,
       fst (get_result []
              (handle_with "abc" "Gathering",
               answering (Responds (mkResponse 200 "OK" (events_body (JArr [JInt 1]))))))
       = inl e
       /\ exc_type e = AttributeError.
Proof.
  split.
  - apply (proj1 (get_result_events_not_a_mapping (handle_with "abc" "")
                    (answering (Responds (mkResponse 200 "OK"
                                            (events_body (JArr [JInt 1])))))
                    (mkResponse 200 "OK" (events_body (JArr [JInt 1]))) [JInt 1] "" []
                    eq_refl eq_refl eq_refl ltac:(vm_compute; reflexivity)));
      reflexivity.
  - apply (proj2 (proj2 (get_result_events_not_a_mapping (handle_with "abc" "Gathering")
                    (answering (Responds (mkResponse 200 "OK"
                                            (events_body (JArr [JInt 1])))))
                    (mkResponse 200 "OK" (events_body (JArr [JInt 1]))) [JInt 1] "" []
                    eq_refl eq_refl eq_refl ltac:(vm_compute; reflexivity)))).
    discriminate.
Defined.

(** X20: [launch] stores the [play_uuid] of the answer unchecked; when the
    service answers with the empty string the handle is in the state that
    [get_status] reads as a failed launch: [launch] itself returns
    normally, and afterwards [get_status] gives ERROR and [get_result] the
    empty mapping, both without any further call. *)
Theorem launch_storing_empty_identifier (h : PlayBookExecution) (ef : list string)
    (w : World) (r : Response) :
  remote w (sent w) (launch_request h) = Responds r ->
  ok r = true ->
  play_uuid_of r = inr (JStr "") ->
  fst (launch (h, w)) = inr tt
  /\ fst (get_status (snd (launch (h, w)))) = inr ERROR
  /\ fst (get_result ef (snd (launch (h, w)))) = inr (JObj [])
  /\ sent (snd (snd (get_status (snd (launch (h, w))))))
     = (sent w ++ [launch_request h])%list
  /\ sent (snd (snd (get_result ef (snd (launch (h, w))))))
     = (sent w ++ [launch_request h])%list.
Proof.
  intros E Hok Hu. destruct (launch_run h w) as [lg ->]. cbn [fst snd].
  rewrite E. unfold launch_outcome. rewrite Hok, Hu. cbn [fst snd].
  rewrite (get_status_launch_failed (with_play_uuid h (JStr "")) _ eq_refl).
  rewrite (get_result_no_identifier ef (with_play_uuid h (JStr "")) _ eq_refl).
  repeat split.
Qed.

Lemma launch_storing_empty_identifier_witness :
  fst (get_status
         (snd (launch (fresh_handle,
                       answering (Responds (mkResponse 200 "OK"
                         (sample_text (JObj [("data",
                            JObj [("play_uuid", JStr "")])]))))))))
  = inr ERROR.
Proof.
  apply (launch_storing_empty_identifier fresh_handle []
           (answering (Responds (mkResponse 200 "OK"
              (sample_text (JObj [("data", JObj [("play_uuid", JStr "")])])))))
           (mkResponse 200 "OK"
              (sample_text (JObj [("data", JObj [("play_uuid", JStr "")])])))
           eq_refl eq_refl ltac:(vm_compute; reflexivity)).
Defined.
